(** * EarthquakeWidget: translation, severity labels and the alert/display controller

    A shallow embedding of the disaster-information widget
    (translateText, getIntensityLabel, getTsunamiGradeLabel, fetchData and the
    widget's two effects) together with the properties its specification
    states about them. *)

From Stdlib Require Import List String Ascii NArith ZArith QArith Bool Lia.
From Stdlib Require Import Permutation.
Import ListNotations.
Close Scope Q_scope.

(** ** JavaScript strings

    A JavaScript string is a sequence of UTF-16 code units.  Literals are
    written as UTF-8 text and decoded by [utf16], so the tables below read as
    they do in the source. *)

Module Js.

Definition jsstring := list N.

Definition bytes (s : string) : list N :=
  map N_of_ascii (list_ascii_of_string s).

(** UTF-8 decoding into UTF-16 code units (a surrogate pair above U+FFFF). *)
Fixpoint decode (bs : list N) : jsstring :=
  match bs with
  | [] => []
  | b0 :: r0 =>
    if (b0 <? 128)%N then b0 :: decode r0
    else match r0 with
    | [] => []
    | b1 :: r1 =>
      if (b0 <? 224)%N then ((b0 - 192) * 64 + (b1 - 128))%N :: decode r1
      else match r1 with
      | [] => []
      | b2 :: r2 =>
        if (b0 <? 240)%N
        then ((b0 - 224) * 4096 + (b1 - 128) * 64 + (b2 - 128))%N :: decode r2
        else match r2 with
        | [] => []
        | b3 :: r3 =>
          let cp := ((b0 - 240) * 262144 + (b1 - 128) * 4096
                     + (b2 - 128) * 64 + (b3 - 128))%N in
          let v := (cp - 65536)%N in
          (55296 + v / 1024)%N :: (56320 + v mod 1024)%N :: decode r3
        end
      end
    end
  end.

Definition utf16 (s : string) : jsstring := decode (bytes s).

Definition eqb (a b : jsstring) : bool :=
  if list_eq_dec N.eq_dec a b then true else false.

(** Truthiness of a string: only the empty string is falsy. *)
Definition truthy (s : jsstring) : bool :=
  match s with [] => false | _ :: _ => true end.

Definition isAscii (c : N) : bool := (c <? 128)%N.

(** The code units matched by [\s] and stripped by [trim]:
    WhiteSpace and LineTerminator of ECMAScript. *)
Definition isSpace (c : N) : bool :=
  ((9 <=? c) && (c <=? 13) || (c =? 32) || (c =? 160) || (c =? 5760)
   || (8192 <=? c) && (c <=? 8202) || (c =? 8232) || (c =? 8233)
   || (c =? 8239) || (c =? 8287) || (c =? 12288) || (c =? 65279))%N.

Fixpoint startsWith (key s : jsstring) : bool :=
  match key, s with
  | [], _ => true
  | _ :: _, [] => false
  | k :: key', c :: s' => (k =? c)%N && startsWith key' s'
  end.

(** [s.split(key)] for a non-empty [key]: the pieces between the leftmost,
    non-overlapping occurrences of [key].  [skip] counts the code units of a
    match still to be passed over, [cur] is the piece being read (reversed). *)
Fixpoint splitFrom (key : jsstring) (skip : nat) (cur s : jsstring)
  : list jsstring :=
  match s with
  | [] => [rev cur]
  | c :: r =>
    match skip with
    | S k => splitFrom key k cur r
    | O =>
      if startsWith key s
      then rev cur :: splitFrom key (List.length key - 1) [] r
      else splitFrom key 0 (c :: cur) r
    end
  end.

Definition split (key s : jsstring) : list jsstring := splitFrom key 0 [] s.

(** [parts.join(sep)]. *)
Fixpoint join (sep : jsstring) (parts : list jsstring) : jsstring :=
  match parts with
  | [] => []
  | [p] => p
  | p :: rest => p ++ sep ++ join sep rest
  end.

(** [s.replace(/\s+/g, ' ')]: every maximal run of white space becomes one
    U+0020.  [inRun] tells that the previous code unit was white space. *)
Fixpoint collapseFrom (inRun : bool) (s : jsstring) : jsstring :=
  match s with
  | [] => []
  | c :: r =>
    if isSpace c
    then if inRun then collapseFrom true r else 32%N :: collapseFrom true r
    else c :: collapseFrom false r
  end.

Definition collapseSpaces (s : jsstring) : jsstring := collapseFrom false s.

Fixpoint trimStart (s : jsstring) : jsstring :=
  match s with
  | [] => []
  | c :: r => if isSpace c then trimStart r else s
  end.

Fixpoint trimEnd (s : jsstring) : jsstring :=
  match s with
  | [] => []
  | c :: r =>
    match trimEnd r with
    | [] => if isSpace c then [] else [c]
    | r' => c :: r'
    end
  end.

Definition trim (s : jsstring) : jsstring := trimEnd (trimStart s).

Definition asciiUpper (c : N) : N :=
  if ((97 <=? c) && (c <=? 122))%N then (c - 32)%N else c.

Section Case.

(** The engine's Unicode upper-case mapping of a maximal run of non-ASCII
    code units.  It belongs to the JavaScript runtime, not to the widget. *)
Variable upperNonAscii : jsstring -> jsstring.

Definition flushRun (run : jsstring) : jsstring :=
  match run with
  | [] => []
  | _ :: _ => upperNonAscii (rev run)
  end.

(** [s.toUpperCase()]: ASCII letters are mapped here, each maximal non-ASCII
    run ([run], reversed) is handed to the engine's table. *)
Fixpoint upperFrom (run s : jsstring) : jsstring :=
  match s with
  | [] => flushRun run
  | c :: r =>
    if isAscii c
    then flushRun run ++ asciiUpper c :: upperFrom [] r
    else upperFrom (c :: run) r
  end.

Definition toUpperCase (s : jsstring) : jsstring := upperFrom [] s.

End Case.

(** Scripts without case (kanji, kana) are left alone by [toUpperCase]; this
    table is the engine's mapping restricted to such text. *)
Definition caseless (run : jsstring) : jsstring := run.

End Js.

Import Js.

(** ** Translation dictionaries *)

Definition dict := list (jsstring * jsstring).

Definition entry (k v : string) : jsstring * jsstring := (utf16 k, utf16 v).

Definition PREF_MAP : dict :=
  [ entry "北海道" "HOKKAIDO"; entry "青森" "AOMORI"; entry "岩手" "IWATE";
    entry "宮城" "MIYAGI"; entry "秋田" "AKITA";
    entry "山形" "YAMAGATA"; entry "福島" "FUKUSHIMA"; entry "茨城" "IBARAKI";
    entry "栃木" "TOCHIGI"; entry "群馬" "GUNMA";
    entry "埼玉" "SAITAMA"; entry "千葉" "CHIBA"; entry "東京" "TOKYO";
    entry "神奈川" "KANAGAWA"; entry "新潟" "NIIGATA";
    entry "富山" "TOYAMA"; entry "石川" "ISHIKAWA"; entry "福井" "FUKUI";
    entry "山梨" "YAMANASHI"; entry "長野" "NAGANO";
    entry "岐阜" "GIFU"; entry "静岡" "SHIZUOKA"; entry "愛知" "AICHI";
    entry "三重" "MIE"; entry "滋賀" "SHIGA";
    entry "京都" "KYOTO"; entry "大阪" "OSAKA"; entry "兵庫" "HYOGO";
    entry "奈良" "NARA"; entry "和歌山" "WAKAYAMA";
    entry "鳥取" "TOTTORI"; entry "島根" "SHIMANE"; entry "岡山" "OKAYAMA";
    entry "広島" "HIROSHIMA"; entry "山口" "YAMAGUCHI";
    entry "徳島" "TOKUSHIMA"; entry "香川" "KAGAWA"; entry "愛媛" "EHIME";
    entry "高知" "KOCHI"; entry "福岡" "FUKUOKA";
    entry "佐賀" "SAGA"; entry "長崎" "NAGASAKI"; entry "熊本" "KUMAMOTO";
    entry "大分" "OITA"; entry "宮崎" "MIYAZAKI";
    entry "鹿児島" "KAGOSHIMA"; entry "沖縄" "OKINAWA";
    (* Specific Regions *)
    entry "トカラ" "TOKARA"; entry "奄美" "AMAMI" ].

Definition SUFFIX_MAP : dict :=
  [ (* Prefectures *)
    entry "県" " PREF"; entry "府" " PREF"; entry "都" " METRO";
    (utf16 "道", []);
    (* Oceans & Coasts (For Tsunami) *)
    entry "日本海" " SEA OF JAPAN"; entry "太平洋" " PACIFIC";
    entry "オホーツク海" " OKHOTSK"; entry "東シナ海" " EAST CHINA SEA";
    entry "沿岸" " COAST"; entry "湾" " BAY"; entry "灘" " SEA";
    entry "海峡" " STRAIT"; entry "諸島" " ISLANDS"; entry "列島" " ISLANDS";
    entry "近海" " NEAR SEA"; entry "外洋" " OPEN SEA"; entry "連島" " ISLANDS";
    entry "沖" " OFF";
    (* 3-char Directions (Specific Regions) *)
    entry "北東部" " NORTH EAST"; entry "北西部" " NORTH WEST";
    entry "南東部" " SOUTH EAST"; entry "南西部" " SOUTH WEST";
    (* 2-char Directions *)
    entry "北部" " NORTH"; entry "南部" " SOUTH"; entry "東部" " EAST";
    entry "西部" " WEST"; entry "中部" " CENTRAL";
    entry "北東" " NORTH EAST"; entry "北西" " NORTH WEST";
    entry "南東" " SOUTH EAST"; entry "南西" " SOUTH WEST";
    (* Geographical features *)
    entry "地方" " REGION"; entry "半島" " PENINSULA"; entry "島" " ISLAND";
    (* 1-char Directions (Fallback) *)
    entry "北" " NORTH"; entry "南" " SOUTH"; entry "東" " EAST";
    entry "西" " WEST" ].

(** [Object.keys(map).forEach(key => text = text.split(key).join(map[key]))]:
    the keys are visited in insertion order. *)
Definition replaceAll (map : dict) (text : jsstring) : jsstring :=
  fold_left (fun t kv => join (snd kv) (split (fst kv) t)) map text.

Section Translate.

Variable upperNonAscii : jsstring -> jsstring.

Definition translateText (japaneseText : jsstring) : jsstring :=
  if negb (truthy japaneseText) then []
  else
    let text := japaneseText in
    (* 1. Replace Prefectures & Regions *)
    let text := replaceAll PREF_MAP text in
    (* 2. Replace Suffixes *)
    let text := replaceAll SUFFIX_MAP text in
    (* 3. Cleanup *)
    let text := trim (collapseSpaces text) in
    toUpperCase upperNonAscii text.

End Translate.

(** ** Severity classifiers *)

(** A JavaScript number as the classifier can receive it: an integer code,
    or NaN.  [undefined], which a record built from an item without
    [maxScale] holds, behaves as NaN here: it is [===] to no number and every
    [<] on it is false. *)
Inductive number := Num (z : Z) | NaN.

Coercion Num : Z >-> number.
Bind Scope Z_scope with number.

(** [a === b] and [a < b] for a number [a] and an integer literal [b]. *)
Definition numEq (a : number) (b : Z) : bool :=
  match a with
  | Num z => (z =? b)%Z
  | NaN => false
  end.

Definition numLt (a : number) (b : Z) : bool :=
  match a with
  | Num z => (z <? b)%Z
  | NaN => false
  end.

Definition numGt (a : number) (b : Z) : bool :=
  match a with
  | Num z => (b <? z)%Z
  | NaN => false
  end.

Definition getIntensityLabel (scale : number) : jsstring :=
  if numEq scale (-1) then utf16 "UNKNOWN"
  else if numLt scale 10 then utf16 "0"
  else if numEq scale 10 then utf16 "1"
  else if numEq scale 20 then utf16 "2"
  else if numEq scale 30 then utf16 "3"
  else if numEq scale 40 then utf16 "4"
  else if numEq scale 45 then utf16 "5- (LOWER)"
  else if numEq scale 50 then utf16 "5+ (UPPER)"
  else if numEq scale 55 then utf16 "6- (LOWER)"
  else if numEq scale 60 then utf16 "6+ (UPPER)"
  else if numEq scale 70 then utf16 "7 (MAX)"
  else utf16 "?".

Definition getTsunamiGradeLabel (grade : jsstring) : jsstring :=
  if eqb grade (utf16 "MajorWarning") then utf16 "MAJOR WARNING"
  else if eqb grade (utf16 "Warning") then utf16 "WARNING"
  else if eqb grade (utf16 "Watch") then utf16 "ADVISORY"
  else utf16 "INFO".

(** ** Data model *)

Inductive DisplayMode := EARTHQUAKE | TSUNAMI | EEW.

Record QuakeData := {
  q_time : jsstring;
  q_hypocenter : jsstring;
  q_magnitude : Q;
  q_maxScale : Z;   (* 10=1, ..., 70=7 *)
  q_depth : Q
}.

Record TsunamiArea := {
  a_grade : jsstring;   (* "MajorWarning", "Warning", "Watch", "Unknown" *)
  a_name : jsstring
}.

Record TsunamiData := {
  t_time : jsstring;
  t_cancelled : bool;
  t_areas : list TsunamiArea;
  t_maxGrade : jsstring
}.

Record EEWData := {
  e_time : jsstring;
  e_hypocenter : jsstring;
  e_magnitude : Q;
  e_maxScale : Z;
  e_isCancelled : bool;
  e_isWarning : bool
}.

(** The component's state: one [useState] cell per field. *)
Record Store := {
  quakeData : option QuakeData;
  tsunamiData : option TsunamiData;
  eewData : option EEWData;
  loading : bool;
  testMode : bool;
  activeMode : DisplayMode;
  lastAlertTime : option jsstring
}.

Definition initialStore : Store :=
  {| quakeData := None; tsunamiData := None; eewData := None;
     loading := false; testMode := false; activeMode := EARTHQUAKE;
     lastAlertTime := None |}.

Definition setQuakeData (v : option QuakeData) (st : Store) : Store :=
  {| quakeData := v; tsunamiData := tsunamiData st; eewData := eewData st;
     loading := loading st; testMode := testMode st;
     activeMode := activeMode st; lastAlertTime := lastAlertTime st |}.

Definition setTsunamiData (v : option TsunamiData) (st : Store) : Store :=
  {| quakeData := quakeData st; tsunamiData := v; eewData := eewData st;
     loading := loading st; testMode := testMode st;
     activeMode := activeMode st; lastAlertTime := lastAlertTime st |}.

Definition setEewData (v : option EEWData) (st : Store) : Store :=
  {| quakeData := quakeData st; tsunamiData := tsunamiData st; eewData := v;
     loading := loading st; testMode := testMode st;
     activeMode := activeMode st; lastAlertTime := lastAlertTime st |}.

Definition setLoading (v : bool) (st : Store) : Store :=
  {| quakeData := quakeData st; tsunamiData := tsunamiData st;
     eewData := eewData st; loading := v; testMode := testMode st;
     activeMode := activeMode st; lastAlertTime := lastAlertTime st |}.

Definition setTestMode (v : bool) (st : Store) : Store :=
  {| quakeData := quakeData st; tsunamiData := tsunamiData st;
     eewData := eewData st; loading := loading st; testMode := v;
     activeMode := activeMode st; lastAlertTime := lastAlertTime st |}.

Definition setActiveMode (v : DisplayMode) (st : Store) : Store :=
  {| quakeData := quakeData st; tsunamiData := tsunamiData st;
     eewData := eewData st; loading := loading st; testMode := testMode st;
     activeMode := v; lastAlertTime := lastAlertTime st |}.

Definition setLastAlertTime (v : option jsstring) (st : Store) : Store :=
  {| quakeData := quakeData st; tsunamiData := tsunamiData st;
     eewData := eewData st; loading := loading st; testMode := testMode st;
     activeMode := activeMode st; lastAlertTime := v |}.

(** ** The three feeds

    What [fetch] and [JSON.parse] hand to [fetchData].  Only the fields the
    widget reads are kept; a sub-object the code dereferences without a guard
    is optional here, and reading through a missing one throws. *)

Record HypocenterJson := {
  h_name : jsstring;
  h_magnitude : Q;
  h_depth : Q
}.

Record QuakeEarthquakeJson := {
  qe_time : jsstring;
  qe_hypocenter : option HypocenterJson;
  qe_maxScale : Z
}.

Record QuakeItem := { qi_earthquake : option QuakeEarthquakeJson }.

Record AreaJson := { aj_grade : jsstring; aj_name : jsstring }.

Record TsunamiItem := {
  ti_time : jsstring;
  ti_cancelled : bool;
  ti_areas : option (list AreaJson)
}.

Record EewEarthquakeJson := {
  ee_hypocenter : option HypocenterJson;
  ee_maxScale : option Z
}.

Record IssueJson := { issue_type : jsstring }.

Record EewItem := {
  ei_time : jsstring;
  ei_cancelled : bool;
  ei_earthquake : option EewEarthquakeJson;
  ei_issue : option IssueJson
}.

(** The body of a response: blank text, text [JSON.parse] rejects, a JSON
    value that is not an array, or an array whose elements are objects or
    [null] ([None]), as the feeds deliver. *)
Inductive Body (A : Type) :=
| Blank
| Invalid
| NotArray
| Items (json : list (option A)).

Arguments Blank {A}.
Arguments Invalid {A}.
Arguments NotArray {A}.
Arguments Items {A} json.

(** A [fetch]: rejected (network failure), or a response with its [ok] flag. *)
Inductive Response (A : Type) :=
| Rejected
| Http (ok : bool) (body : Body A).

Arguments Rejected {A}.
Arguments Http {A} ok body.

(** ** State and exceptions

    A computation reads and writes the store and may throw; what it wrote
    before throwing stays written (the setters were already called). *)

Definition Eff (A : Type) : Type := Store -> Store * option A.

Definition ret {A} (a : A) : Eff A := fun st => (st, Some a).

Definition throw {A} : Eff A := fun st => (st, None).

Definition bind {A B} (m : Eff A) (k : A -> Eff B) : Eff B :=
  fun st =>
    match m st with
    | (st', Some a) => k a st'
    | (st', None) => (st', None)
    end.

Definition set (f : Store -> Store) : Eff unit := fun st => (f st, Some tt).

Notation "x <- m ;; k" := (bind m (fun x => k))
  (at level 61, m at next level, right associativity).
Notation "m ;;; k" := (bind m (fun _ => k))
  (at level 61, right associativity).

(** Reading a property of a missing object throws a TypeError. *)
Definition deref {A} (o : option A) : Eff A :=
  match o with
  | Some a => ret a
  | None => throw
  end.

(** [await Promise.all([...])]: rejects as soon as one fetch rejects. *)
Definition awaitAll {A B C} (rq : Response A) (rt : Response B)
  (re : Response C) : Eff (bool * Body A * (bool * Body B) * (bool * Body C)) :=
  match rq, rt, re with
  | Http okq bq, Http okt bt, Http oke be =>
    ret (okq, bq, (okt, bt), (oke, be))
  | _, _, _ => throw
  end.

(** The guards shared by the three feeds:
    [res.ok], [text && text.trim().length > 0], [JSON.parse(text)],
    [Array.isArray(json) && json.length > 0], then [json[0]].
    [None]: the update is skipped; [Some x]: [json[0]] is [x]. *)
Definition latest {A} (res : bool * Body A) : Eff (option (option A)) :=
  let (ok, body) := res in
  if ok then
    match body with
    | Blank => ret None
    | Invalid => throw
    | NotArray => ret None
    | Items [] => ret None
    | Items (first :: _) => ret (Some first)
    end
  else ret None.

(** ** The widget *)

Definition gradeIs (g : jsstring) (a : TsunamiArea) : bool := eqb (a_grade a) g.

(** Highest grade among the areas: MajorWarning > Warning > Watch > Unknown. *)
Definition maxGradeOf (areas : list TsunamiArea) : jsstring :=
  if existsb (gradeIs (utf16 "MajorWarning")) areas then utf16 "MajorWarning"
  else if existsb (gradeIs (utf16 "Warning")) areas then utf16 "Warning"
  else if existsb (gradeIs (utf16 "Watch")) areas then utf16 "Watch"
  else utf16 "Unknown".

(** [x || -1] on a number that may be missing. *)
Definition orMinusOne (x : option Z) : Z :=
  match x with
  | Some v => if (v =? 0)%Z then (-1)%Z else v
  | None => (-1)%Z
  end.

(** Freshness window of an early warning, in milliseconds: 3 * 60 * 1000. *)
Definition freshnessWindow : Z := 3 * 60 * 1000.

(** Period of the rotation interval, in milliseconds. *)
Definition rotationPeriod : Z := 10000.

(** [!==] between a string and the last alerted time (a string or null). *)
Definition differs (t : jsstring) (last : option jsstring) : bool :=
  match last with
  | Some l => negb (eqb t l)
  | None => true
  end.

(** [x && p(x)] as the condition of an [if]: the object when it is there and
    passes the test. *)
Definition having {A} (o : option A) (p : A -> bool) : option A :=
  match o with
  | Some a => if p a then Some a else None
  | None => None
  end.

Definition modeEqb (a b : DisplayMode) : bool :=
  match a, b with
  | EARTHQUAKE, EARTHQUAKE | TSUNAMI, TSUNAMI | EEW, EEW => true
  | _, _ => false
  end.

Section Widget.

(** The engine's case table beyond ASCII, and [new Date(s).getTime()]
    ([None] for an invalid date, whose time value is NaN). *)
Variable upperNonAscii : jsstring -> jsstring.
Variable dateTime : jsstring -> option Z.

(** *** Data fetching *)

(* Process Earthquake Data (551) *)
Definition processQuake (res : bool * Body QuakeItem) : Eff unit :=
  json0 <- latest res ;;
  match json0 with
  | Some (Some latestQuake) =>
    match qi_earthquake latestQuake with
    | Some q =>
      h <- deref (qe_hypocenter q) ;;
      set (setQuakeData (Some {|
        q_time := qe_time q;
        q_hypocenter := translateText upperNonAscii (h_name h);
        q_magnitude := h_magnitude h;
        q_maxScale := qe_maxScale q;
        q_depth := h_depth h |}))
    | None => ret tt
    end
  | _ => ret tt
  end.

(* Process Tsunami Data (552) *)
Definition processTsunami (res : bool * Body TsunamiItem) : Eff unit :=
  json0 <- latest res ;;
  match json0 with
  | Some first =>
    match first with
    | Some latestTsunami =>
      match ti_areas latestTsunami with
      | Some areasJson =>
        let areas := map (fun a => {| a_grade := aj_grade a;
                                      a_name := translateText upperNonAscii (aj_name a) |})
                         areasJson in
        set (setTsunamiData (Some {|
          t_time := ti_time latestTsunami;
          t_cancelled := ti_cancelled latestTsunami;
          t_areas := areas;
          t_maxGrade := maxGradeOf areas |}))
      | None => set (setTsunamiData None)
      end
    | None => set (setTsunamiData None)
    end
  | None => ret tt
  end.

Definition isRecent (now : Z) (time : jsstring) : bool :=
  match dateTime time with
  | Some eventTime => (now - eventTime <? freshnessWindow)%Z
  | None => false
  end.

(* Process EEW Data (554) *)
Definition processEEW (now : Z) (res : bool * Body EewItem) : Eff unit :=
  json0 <- latest res ;;
  match json0 with
  | Some first =>
    latestEEW <- deref first ;;
    (* Check validity: must not be cancelled, and must be recent *)
    if isRecent now (ei_time latestEEW) && negb (ei_cancelled latestEEW)
    then
      match ei_earthquake latestEEW with
      | Some eewArea =>
        h <- deref (ee_hypocenter eewArea) ;;
        issue <- deref (ei_issue latestEEW) ;;
        set (setEewData (Some {|
          e_time := ei_time latestEEW;
          e_hypocenter := translateText upperNonAscii (h_name h);
          e_magnitude := h_magnitude h;
          e_maxScale := orMinusOne (ee_maxScale eewArea);
          e_isCancelled := ei_cancelled latestEEW;
          e_isWarning := eqb (issue_type issue) (utf16 "Warning") |}))
      | None => ret tt
      end
    else set (setEewData None) (* Expired or cancelled *)
  | None => ret tt
  end.

(** The [try] block of [fetchData]. *)
Definition fetchBody (rq : Response QuakeItem) (rt : Response TsunamiItem)
  (re : Response EewItem) (now : Z) : Eff unit :=
  all <- awaitAll rq rt re ;;
  let '(quakeRes, tsunamiRes, eewRes) := all in
  processQuake quakeRes ;;;
  processTsunami tsunamiRes ;;;
  processEEW now eewRes.

(** [fetchData]: an exception is caught and logged, [finally] clears the
    loading flag.  This is the call as a whole, its writes one after the
    other; the call awaits between them, and [Event] below takes it apart
    ([poll_run_is_fetchData] relates the two). *)
Definition fetchData (rq : Response QuakeItem) (rt : Response TsunamiItem)
  (re : Response EewItem) (now : Z) (st : Store) : Store :=
  if testMode st then st
  else
    let st := setLoading true st in
    let (st, _) := fetchBody rq rt re now st in
    setLoading false st.

(** *** Alert sound trigger

    The effect returns the store it leaves and the call of [playAlertSound]
    it made, if any ([Some isEEW]). *)
Definition alertEffect (st : Store) : Store * option bool :=
  if testMode st then (st, None) (* Handled manually in test toggle *)
  else
    let '(shouldAlert, eventTime, isEEW) :=
      match eewData st with
      | Some eew => (* 1. Check EEW (Priority) *)
        if differs (e_time eew) (lastAlertTime st)
        then (true, e_time eew, true) else (false, [], false)
      | None =>
        match having (quakeData st) (fun q => (30 <=? q_maxScale q)%Z) with
        | Some quake => (* 2. Check Quake (Scale >= 30 means Shindo 3+) *)
          if differs (q_time quake) (lastAlertTime st)
          then (true, q_time quake, false) else (false, [], false)
        | None =>
          match having (tsunamiData st) (fun t => negb (t_cancelled t)) with
          | Some tsunami => (* 3. Check Tsunami (Any active) *)
            if differs (t_time tsunami) (lastAlertTime st)
            then (true, t_time tsunami, false) else (false, [], false)
          | None => (false, [], false)
          end
        end
      end in
    if shouldAlert && truthy eventTime
    then (setLastAlertTime (Some eventTime) st, Some isEEW)
    else (st, None).

(** *** Auto rotation and mode selection *)

(** The updater passed to [setActiveMode] by the interval. *)
Definition rotate (prev : DisplayMode) : DisplayMode :=
  match prev with
  | EARTHQUAKE => TSUNAMI
  | _ => EARTHQUAKE
  end.

(** The interval's callback; [captured] is the [activeMode] of the render
    that armed it. *)
Definition rotationTick (captured : DisplayMode) (st : Store) : Store :=
  if negb (modeEqb captured EEW) (* Don't rotate away from EEW *)
  then setActiveMode (rotate (activeMode st)) st
  else st.

(** An armed [setInterval]: its period and the mode its callback captured. *)
Record Interval := { period : Z; captured : DisplayMode }.

(** The effect returns the store it leaves and the interval it arms. *)
Definition modeEffect (st : Store) : Store * option Interval :=
  if testMode st then (st, None)
  else
    match eewData st with
    | Some _ => (* If EEW is present, FORCE EEW mode *)
      (setActiveMode EEW st, None)
    | None =>
      (* If was in EEW but it's gone, reset to Earthquake *)
      let st' := if modeEqb (activeMode st) EEW
                 then setActiveMode EARTHQUAKE st else st in
      (* Normal Rotation *)
      (st', Some {| period := rotationPeriod; captured := activeMode st |})
    end.

(** *** Test simulation *)

Definition toggleTestMode (isoEew isoQuake : jsstring) (st : Store)
  : Store * option bool :=
  if negb (testMode st) then
    let st := setTestMode true st in
    let st := setActiveMode EEW st in
    (* Play sound immediately for test *)
    let st := setEewData (Some {|
      e_time := isoEew;
      e_hypocenter := utf16 "KANTO REGION (SIMULATION)";
      e_magnitude := (15 # 2)%Q;
      e_maxScale := 60;
      e_isCancelled := false;
      e_isWarning := true |}) st in
    let st := setQuakeData (Some {|
      q_time := isoQuake;
      q_hypocenter := utf16 "TOKYO BAY";
      q_magnitude := (15 # 2)%Q;
      q_maxScale := 60;
      q_depth := (50 # 1)%Q |}) st in
    (st, Some true)
  else
    let st := setTestMode false st in
    let st := setQuakeData None st in
    let st := setTsunamiData None st in
    let st := setEewData None st in
    let st := setLastAlertTime None st in
    let st := setActiveMode EARTHQUAKE st in
    (st, None).

(** *** Render flags *)

Definition isEEWActive (st : Store) : bool :=
  match eewData st with Some _ => true | None => false end.

(** Both mode tabs carry [disabled={isEEWActive}]. *)
Definition tabsDisabled (st : Store) : bool := isEEWActive st.

(** The CANCELLED badge of the EEW view. *)
Definition showsCancelled (st : Store) : bool :=
  match eewData st with
  | Some eew => modeEqb (activeMode st) EEW && e_isCancelled eew
  | None => false
  end.

(** *** The widget as a machine

    After an event has written the store, React renders and re-runs the
    effects whose dependencies changed, until nothing changes. *)

Definition sounds (o : option bool) : list bool :=
  match o with Some s => [s] | None => [] end.

Definition runEffects (st : Store) : Store * list bool :=
  let (st, played) := alertEffect st in
  let (st, _) := modeEffect st in
  (st, sounds played).

Definition settle (st : Store) : Store * list bool :=
  let (st, s1) := runEffects st in
  let (st, s2) := runEffects st in
  (st, s1 ++ s2).

(** The interval armed once the effects have settled. *)
Definition armed (st : Store) : option Interval := snd (modeEffect st).

(** A call of [fetchData] is not one step.  It returns at once in test mode;
    otherwise it sets the loading flag, awaits the three fetches, then awaits
    and processes each body in turn, and React renders and runs the effects
    between these writes.  A call is therefore a [PollBegin], the blocks it
    gets to and a [PollEnd]; any other event, the blocks of other calls in
    flight included, can come between them.  Only [PollBegin] reads
    [testMode]. *)
Inductive Event :=
| PollBegin
| QuakeArrives (res : bool * Body QuakeItem)
| TsunamiArrives (res : bool * Body TsunamiItem)
| EewArrives (res : bool * Body EewItem) (now : Z)
| PollEnd
| ClickSeismic
| ClickTsunami
| RotationTimer
| ToggleTest (isoEew isoQuake : jsstring).

(** A click on a tab: a disabled button dispatches nothing. *)
Definition clickTab (m : DisplayMode) (st : Store) : Store :=
  if tabsDisabled st then st else setActiveMode m st.

Definition handle (ev : Event) (st : Store) : Store * list bool :=
  match ev with
  | PollBegin => (if testMode st then st else setLoading true st, [])
  | QuakeArrives res => (fst (processQuake res st), [])
  | TsunamiArrives res => (fst (processTsunami res st), [])
  | EewArrives res now => (fst (processEEW now res st), [])
  | PollEnd => (setLoading false st, [])
  | ClickSeismic => (clickTab EARTHQUAKE st, [])
  | ClickTsunami => (clickTab TSUNAMI st, [])
  | RotationTimer =>
    match armed st with
    | Some i => (rotationTick (captured i) st, [])
    | None => (st, [])
    end
  | ToggleTest isoEew isoQuake =>
    let (st, played) := toggleTestMode isoEew isoQuake st in
    (st, sounds played)
  end.

Definition step (ev : Event) (st : Store) : Store * list bool :=
  let (st, s1) := handle ev st in
  let (st, s2) := settle st in
  (st, s1 ++ s2).

Fixpoint run (evs : list Event) (st : Store) : Store * list bool :=
  match evs with
  | [] => (st, [])
  | ev :: rest =>
    let (st, s1) := step ev st in
    let (st, s2) := run rest st in
    (st, s1 ++ s2)
  end.

(** *** The specification's reading of the alert trigger *)

(** Priority order: EEW > earthquake with intensity >= 30 > active tsunami.
    The record selected, as its time and whether it is an early warning. *)
Definition activeTsunami (st : Store) : option (jsstring * bool) :=
  match tsunamiData st with
  | Some tsunami =>
    if t_cancelled tsunami then None else Some (t_time tsunami, false)
  | None => None
  end.

Definition candidate (st : Store) : option (jsstring * bool) :=
  match eewData st with
  | Some eew => Some (e_time eew, true)
  | None =>
    match quakeData st with
    | Some quake =>
      if (q_maxScale quake >=? 30)%Z then Some (q_time quake, false)
      else activeTsunami st
    | None => activeTsunami st
    end
  end.

(** What the specification asks of one evaluation: play for the selected
    record unless its time is the last alerted one. *)
Definition alertSpec (st : Store) : Store * option bool :=
  if testMode st then (st, None)
  else
    match candidate st with
    | Some (t, isEEW) =>
      if differs t (lastAlertTime st) && truthy t
      then (setLastAlertTime (Some t) st, Some isEEW)
      else (st, None)
    | None => (st, None)
    end.

(** Replacing the three records, as a poll does. *)
Definition withData (q : option QuakeData) (t : option TsunamiData)
  (e : option EEWData) (st : Store) : Store :=
  setEewData e (setTsunamiData t (setQuakeData q st)).

(** Successive data updates, the alert trigger evaluated after each one
    (twice: it runs again when it has changed [lastAlertTime]). *)
Fixpoint alertRun
  (updates : list (option QuakeData * option TsunamiData * option EEWData))
  (st : Store) : Store * list bool :=
  match updates with
  | [] => (st, [])
  | (q, t, e) :: rest =>
    let (st1, p1) := alertEffect (withData q t e st) in
    let (st2, p2) := alertEffect st1 in
    let (st3, ps) := alertRun rest st2 in
    (st3, sounds p1 ++ sounds p2 ++ ps)
  end.

(** *** White space in normal form

    [tidy inRun s]: every white-space code unit of [s] is a lone U+0020, none
    of them right after white space ([inRun] for the unit before [s]). *)
Fixpoint tidy (inRun : bool) (s : jsstring) : bool :=
  match s with
  | [] => true
  | c :: r =>
    if isSpace c then (c =? 32)%N && negb inRun && tidy true r
    else tidy false r
  end.

Definition startsClean (s : jsstring) : bool :=
  match s with
  | [] => true
  | c :: _ => negb (isSpace c)
  end.

Definition headNonAscii (kv : jsstring * jsstring) : bool :=
  match fst kv with
  | [] => false
  | k :: _ => negb (isAscii k)
  end.

(** *** Notions used by the properties *)

(** The intensity codes with a label of their own. *)
Definition listedCodes : list Z := [10; 20; 30; 40; 45; 50; 55; 60; 70]%Z.

(** The three records as one update leaves them. *)
Definition update : Type :=
  option QuakeData * option TsunamiData * option EEWData.

(** The time of the record an update makes the trigger select, if any. *)
Definition selectedTime (u : update) : option jsstring :=
  let '(q, t, e) := u in
  option_map fst (candidate (withData q t e initialStore)).

(** The update selects the record of time [t], or none. *)
Definition sameEvent (t : jsstring) (u : update) : Prop :=
  selectedTime u = Some t \/ selectedTime u = None.

(** A response that carries no first item: the fetch was rejected, the status
    is not ok, the body is blank, is not JSON, is not an array, or is an
    empty array. *)
Definition unusable {A} (r : Response A) : bool :=
  match r with
  | Rejected => true
  | Http false _ => true
  | Http true (Items (_ :: _)) => false
  | Http true _ => true
  end.

(** An earthquake response whose first item cannot be read: it is null, or
    lacks [earthquake], or its [earthquake] lacks [hypocenter]. *)
Definition quakeDeficient (r : Response QuakeItem) : bool :=
  match r with
  | Http true (Items (first :: _)) =>
    match first with
    | Some item =>
      match qi_earthquake item with
      | Some q => match qe_hypocenter q with Some _ => false | None => true end
      | None => true
      end
    | None => true
    end
  | _ => false
  end.

(** The stored early warning, if any, is not cancelled. *)
Definition eewLive (st : Store) : Prop :=
  match eewData st with
  | Some eew => e_isCancelled eew = false
  | None => True
  end.

Arguments translateText : simpl never.
Arguments maxGradeOf : simpl never.

(** Nothing is left for the effects to do. *)
Definition settled (st : Store) : Prop := runEffects st = (st, []).

(** The display is on the early warning whenever one is present. *)
Definition forced (st : Store) : Prop :=
  isEEWActive st = true -> activeMode st = EEW.

(** *** Tsunami grades and their display *)

Definition getTsunamiColor (grade : jsstring) : jsstring :=
  if eqb grade (utf16 "MajorWarning")
  then utf16 "text-purple-500 drop-shadow-[0_0_8px_rgba(168,85,247,0.8)]"
  else if eqb grade (utf16 "Warning")
  then utf16 "text-red-500 drop-shadow-[0_0_8px_rgba(239,68,68,0.8)]"
  else if eqb grade (utf16 "Watch") then utf16 "text-yellow-400"
  else utf16 "text-cyan-400".

(** The severity order of the grades: MajorWarning > Warning > Watch, and
    every other grade (Unknown included) below them. *)
Definition gradeRank (grade : jsstring) : nat :=
  if eqb grade (utf16 "MajorWarning") then 3
  else if eqb grade (utf16 "Warning") then 2
  else if eqb grade (utf16 "Watch") then 1
  else 0.

Definition pairwiseDistinct (a b c d : jsstring) : Prop :=
  a <> b /\ a <> c /\ a <> d /\ b <> c /\ b <> d /\ c <> d.

(** The codes [getIntensityLabel] gives a label of their own, -1 included. *)
Definition labelledCodes : list Z := (-1)%Z :: listedCodes.

(** *** Notions about the translation tables *)

(** The code units that are a key of the suffix table on their own. *)
Definition singleKeys (map : dict) : list N :=
  flat_map (fun kv => match fst kv with [c] => [c] | _ => [] end) map.

(** The engine's table does not make up the code unit [c]. *)
Definition keepsOut (up : jsstring -> jsstring) (c : N) : Prop :=
  forall run : jsstring, In c (up run) -> In c run.

Definition asciiValues (map : dict) : bool :=
  forallb (fun kv => forallb isAscii (snd kv)) map.

(** The last code unit of [s] is not white space ([ok] stands for the code
    unit before [s]). *)
Fixpoint endsOk (ok : bool) (s : jsstring) : bool :=
  match s with
  | [] => ok
  | c :: r => endsOk (negb (isSpace c)) r
  end.

Definition spaceFree (s : jsstring) : bool :=
  forallb (fun c => negb (isSpace c)) s.

(** The engine's table maps a non-empty run without white space to a
    non-empty run without white space. *)
Definition keepsWords (up : jsstring -> jsstring) : Prop :=
  forall run : jsstring, run <> [] -> spaceFree run = true ->
    up run <> [] /\ spaceFree (up run) = true.

(** *** Notions about a poll *)

(** An earthquake response whose processing throws: the body is not JSON, or
    the first item has an [earthquake] without [hypocenter]. *)
Definition quakeThrows (r : Response QuakeItem) : bool :=
  match r with
  | Http true Invalid => true
  | Http true (Items (Some item :: _)) =>
    match qi_earthquake item with
    | Some q => match qe_hypocenter q with Some _ => false | None => true end
    | None => false
    end
  | _ => false
  end.

(** A tsunami response whose processing throws: the body is not JSON. *)
Definition tsunamiThrows (r : Response TsunamiItem) : bool :=
  match r with
  | Http true Invalid => true
  | _ => false
  end.

Definition isRejected {A} (r : Response A) : bool :=
  match r with Rejected => true | Http _ _ => false end.

(** The same response with another tail after its first item. *)
Definition retail {A} (tail : list (option A)) (r : Response A) : Response A :=
  match r with
  | Http ok (Items (first :: _)) => Http ok (Items (first :: tail))
  | _ => r
  end.

(** *** Render flags and the view shown *)

(* Determine Alert Levels *)
Definition isQuakeAlert (st : Store) : bool :=
  match quakeData st with
  | Some quake => (30 <=? q_maxScale quake)%Z
  | None => false
  end.

Definition isQuakeMajor (st : Store) : bool :=
  match quakeData st with
  | Some quake => (45 <=? q_maxScale quake)%Z
  | None => false
  end.

Definition isTsunamiActive (st : Store) : bool :=
  match tsunamiData st with
  | Some tsunami => negb (t_cancelled tsunami)
  | None => false
  end.

Definition maxGradeIs (st : Store) (g : jsstring) : bool :=
  match tsunamiData st with
  | Some tsunami => eqb (t_maxGrade tsunami) g
  | None => false
  end.

Definition isTsunamiMajor (st : Store) : bool :=
  isTsunamiActive st && maxGradeIs st (utf16 "MajorWarning").

Definition isTsunamiWarning (st : Store) : bool :=
  isTsunamiActive st
  && (maxGradeIs st (utf16 "Warning") || maxGradeIs st (utf16 "MajorWarning")).

(** The condition of the animated scanline. *)
Definition scanline (st : Store) : bool :=
  isQuakeAlert st || isTsunamiActive st || isEEWActive st.

Inductive View := EewView | TsunamiView | EarthquakeView.

Definition hasTsunami (st : Store) : bool :=
  match tsunamiData st with Some _ => true | None => false end.

(** The view the monitor container renders. *)
Definition view (st : Store) : View :=
  if modeEqb (activeMode st) EEW && isEEWActive st then EewView
  else if modeEqb (activeMode st) TSUNAMI && hasTsunami st then TsunamiView
  else EarthquakeView.

(** The events of one call of [fetchData] that passed the test-mode guard
    and whose fetches settle as [rq], [rt] and [re]: a block that throws is
    the last one to run. *)
Definition pollEvents (rq : Response QuakeItem) (rt : Response TsunamiItem)
  (re : Response EewItem) (now : Z) : list Event :=
  PollBegin ::
  match rq, rt, re with
  | Http okq bq, Http okt bt, Http oke be =>
    QuakeArrives (okq, bq) ::
    (if quakeThrows rq then []
     else TsunamiArrives (okt, bt) ::
          (if tsunamiThrows rt then [] else [EewArrives (oke, be) now]))
  | _, _, _ => []
  end ++ [PollEnd].

(** The store after the events' own writes, the effects left aside. *)
Definition writes (evs : list Event) (st : Store) : Store :=
  fold_left (fun s ev => fst (handle ev s)) evs st.

(** *** Notions about stored records *)

(** The forecast scale of the stored early warning is not 0. *)
Definition scaleNonZero (st : Store) : Prop :=
  forall r, eewData st = Some r -> e_maxScale r <> 0%Z.

(** The stored tsunami record carries the highest grade of its own areas. *)
Definition gradeConsistent (st : Store) : Prop :=
  forall r, tsunamiData st = Some r -> t_maxGrade r = maxGradeOf (t_areas r).

(** The early-warning record [processEEW] builds from an item. *)
Definition eewOf (up : jsstring -> jsstring) (item : EewItem)
  (area : EewEarthquakeJson) (h : HypocenterJson) (issue : IssueJson)
  : EEWData :=
  {| e_time := ei_time item;
     e_hypocenter := translateText up (h_name h);
     e_magnitude := h_magnitude h;
     e_maxScale := orMinusOne (ee_maxScale area);
     e_isCancelled := ei_cancelled item;
     e_isWarning := eqb (issue_type issue) (utf16 "Warning") |}.

(** *** The date table on UTC date-times

    [new Date(s).getTime()] for [s] in the ECMAScript date-time format with
    the UTC designator, "YYYY-MM-DDTHH:mm:ssZ", naming a day of the calendar
    and a time of day from 00:00:00 to 23:59:59: milliseconds since the
    epoch.  Any other string is not read by this table (an invalid date). *)

Definition digit (c : N) : option Z :=
  if ((48 <=? c) && (c <=? 57))%N then Some (Z.of_N c - 48)%Z else None.

Definition digits2 (a b : N) : option Z :=
  match digit a, digit b with
  | Some x, Some y => Some (x * 10 + y)%Z
  | _, _ => None
  end.

Definition digits4 (a b c d : N) : option Z :=
  match digits2 a b, digits2 c d with
  | Some x, Some y => Some (x * 100 + y)%Z
  | _, _ => None
  end.

(** Days from 1970-01-01 to the given day of the proleptic Gregorian
    calendar. *)
Definition daysFromCivil (y m d : Z) : Z :=
  let y' := (if m <=? 2 then y - 1 else y)%Z in
  let era := (y' / 400)%Z in
  let yoe := (y' - era * 400)%Z in
  let mp := (if m <=? 2 then m + 9 else m - 3)%Z in
  let doy := ((153 * mp + 2) / 5 + d - 1)%Z in
  let doe := (yoe * 365 + yoe / 4 - yoe / 100 + doy)%Z in
  (era * 146097 + doe - 719468)%Z.

Definition isLeap (y : Z) : bool :=
  (((y mod 4 =? 0) && negb (y mod 100 =? 0)) || (y mod 400 =? 0))%Z.

Definition daysInMonth (y m : Z) : Z :=
  if (m =? 2)%Z then (if isLeap y then 29 else 28)%Z
  else if ((m =? 4) || (m =? 6) || (m =? 9) || (m =? 11))%Z then 30%Z
  else 31%Z.

Definition utcDateTime (s : jsstring) : option Z :=
  match s with
  | [y1; y2; y3; y4; p1; m1; m2; p2; d1; d2; t; h1; h2; c1; n1; n2; c2;
     s1; s2; z] =>
    if ((p1 =? 45) && (p2 =? 45) && (t =? 84) && (c1 =? 58) && (c2 =? 58)
        && (z =? 90))%N
    then
      match digits4 y1 y2 y3 y4, digits2 m1 m2, digits2 d1 d2,
            digits2 h1 h2, digits2 n1 n2, digits2 s1 s2 with
      | Some y, Some m, Some d, Some h, Some n, Some sec =>
        if ((1 <=? m) && (m <=? 12) && (1 <=? d) && (d <=? daysInMonth y m)
            && (h <=? 23) && (n <=? 59) && (sec <=? 59))%Z
        then Some ((((daysFromCivil y m d * 24 + h) * 60 + n) * 60 + sec)
                   * 1000)%Z
        else None
      | _, _, _, _, _, _ => None
      end
    else None
  | _ => None
  end.

(** *** Sample data

    Concrete records, feed items and runtime tables on which the properties
    below are evaluated. *)

Definition sampleTime : jsstring := utf16 "2025-11-22T10:15:00Z".

(** One second, and ten minutes, after [sampleTime], as [Date.now()]. *)
Definition sampleNow : Z := 1763806501000.

Definition lateNow : Z := 1763807100000.

(** [new Date().toISOString()] at [sampleTime], as the test button reads it. *)
Definition sampleIso : jsstring := utf16 "2025-11-22T10:15:00.000Z".

Definition sampleQuake : QuakeData :=
  {| q_time := sampleTime; q_hypocenter := utf16 "TOKYO BAY";
     q_magnitude := (52 # 10)%Q; q_maxScale := 40; q_depth := (50 # 1)%Q |}.

Definition sampleTsunami : TsunamiData :=
  {| t_time := sampleTime; t_cancelled := false;
     t_areas := [ {| a_grade := utf16 "Watch"; a_name := utf16 "CHIBA" |} ];
     t_maxGrade := utf16 "Watch" |}.

Definition sampleEew : EEWData :=
  {| e_time := sampleTime; e_hypocenter := utf16 "TOKYO BAY";
     e_magnitude := (52 # 10)%Q; e_maxScale := 40;
     e_isCancelled := false; e_isWarning := true |}.

Definition sampleHypocenter : HypocenterJson :=
  {| h_name := utf16 "千葉県東方沖"; h_magnitude := (52 # 10)%Q;
     h_depth := (50 # 1)%Q |}.

Definition sampleEewItem (cancelled : bool) : EewItem :=
  {| ei_time := sampleTime; ei_cancelled := cancelled;
     ei_earthquake := Some {| ee_hypocenter := Some sampleHypocenter;
                              ee_maxScale := Some 40%Z |};
     ei_issue := Some {| issue_type := utf16 "Warning" |} |}.

(** An early warning issued five minutes after [sampleTime]. *)
Definition laterTime : jsstring := utf16 "2025-11-22T10:20:00Z".

Definition laterEew : EEWData :=
  {| e_time := laterTime; e_hypocenter := utf16 "IBARAKI PREF OFF";
     e_magnitude := (48 # 10)%Q; e_maxScale := 30;
     e_isCancelled := false; e_isWarning := false |}.

(** A tsunami item with an advisory and a warning. *)
Definition sampleTsunamiItem : TsunamiItem :=
  {| ti_time := sampleTime; ti_cancelled := false;
     ti_areas := Some [ {| aj_grade := utf16 "Watch";
                           aj_name := utf16 "千葉県九十九里・外房" |};
                        {| aj_grade := utf16 "Warning";
                           aj_name := utf16 "福島県" |} ] |}.

Definition watchArea : TsunamiArea :=
  {| a_grade := utf16 "Watch"; a_name := utf16 "CHIBA PREF" |}.

Definition warningArea : TsunamiArea :=
  {| a_grade := utf16 "Warning"; a_name := utf16 "FUKUSHIMA PREF" |}.

(** A tsunami item without its [areas] field. *)
Definition bareTsunamiItem : TsunamiItem :=
  {| ti_time := sampleTime; ti_cancelled := false; ti_areas := None |}.

(** An early-warning item whose time cannot be read as a date. *)
Definition undatedEewItem : EewItem :=
  {| ei_time := utf16 "unknown"; ei_cancelled := false;
     ei_earthquake := Some {| ee_hypocenter := Some sampleHypocenter;
                              ee_maxScale := Some 40%Z |};
     ei_issue := Some {| issue_type := utf16 "Warning" |} |}.

(** A fresh early-warning item whose [earthquake] lacks [hypocenter]. *)
Definition bareEewItem : EewItem :=
  {| ei_time := sampleTime; ei_cancelled := false;
     ei_earthquake := Some {| ee_hypocenter := None; ee_maxScale := Some 40%Z |};
     ei_issue := Some {| issue_type := utf16 "Warning" |} |}.




Definition isToggle (ev : Event) : bool :=
  match ev with ToggleTest _ _ => true | _ => false end.

(** Two stores with the same records, loading flag and test mode. *)
Definition sameData (a b : Store) : Prop :=
  quakeData a = quakeData b /\ tsunamiData a = tsunamiData b
  /\ eewData a = eewData b /\ loading a = loading b
  /\ testMode a = testMode b.

(** The events of a call of [fetchData]. *)
Definition isPollEvent (ev : Event) : bool :=
  match ev with
  | PollBegin | QuakeArrives _ | TsunamiArrives _ | EewArrives _ _ | PollEnd =>
    true
  | _ => false
  end.

(** ** Properties of the string primitives *)

Lemma isSpace_letter (c : N) : (65 <= c <= 122)%N -> isSpace c = false.
Proof.
  intros H. unfold isSpace.
  repeat apply orb_false_intro;
    try (apply N.eqb_neq; lia);
    apply andb_false_iff;
    ((left; apply N.leb_gt; lia) || (right; apply N.leb_gt; lia)).
Qed.

Lemma isSpace_asciiUpper (c : N) : isSpace (asciiUpper c) = isSpace c.
Proof.
  unfold asciiUpper.
  destruct (N.leb_spec 97 c); simpl; [|reflexivity].
  destruct (N.leb_spec c 122); simpl; [|reflexivity].
  rewrite !isSpace_letter by lia. reflexivity.
Qed.

Lemma asciiUpper_space : asciiUpper 32 = 32%N.
Proof. reflexivity. Qed.

Lemma asciiUpper_idem (c : N) : asciiUpper (asciiUpper c) = asciiUpper c.
Proof.
  unfold asciiUpper.
  destruct (N.leb_spec 97 c) as [H1|H1]; simpl.
  - destruct (N.leb_spec c 122) as [H2|H2]; simpl.
    + destruct (N.leb_spec 97 (c - 32)); [lia | reflexivity].
    + destruct (N.leb_spec 97 c); [|lia].
      destruct (N.leb_spec c 122); [lia | reflexivity].
  - destruct (N.leb_spec 97 c); [lia | reflexivity].
Qed.

Lemma isAscii_asciiUpper (c : N) : isAscii c = true -> isAscii (asciiUpper c) = true.
Proof.
  unfold isAscii, asciiUpper. intros H. apply N.ltb_lt in H.
  apply N.ltb_lt.
  destruct ((97 <=? c) && (c <=? 122))%N; lia.
Qed.

Lemma startsWith_foreign (key s : jsstring) (k c : N) :
  isAscii k = false -> isAscii c = true -> startsWith (k :: key) (c :: s) = false.
Proof.
  unfold isAscii. intros Hk Hc. simpl.
  apply N.ltb_ge in Hk. apply N.ltb_lt in Hc.
  destruct (N.eqb_spec k c); [lia | reflexivity].
Qed.

Lemma splitFrom_foreign (key cur s : jsstring) (k : N) :
  isAscii k = false -> forallb isAscii s = true ->
  splitFrom (k :: key) 0 cur s = [rev cur ++ s].
Proof.
  intros Hk. revert cur.
  induction s as [|c r IH]; intros cur Hs.
  - simpl. now rewrite app_nil_r.
  - simpl in Hs. apply andb_prop in Hs. destruct Hs as [Hc Hr].
    cbn [splitFrom]. rewrite (startsWith_foreign key r k c Hk Hc).
    rewrite IH by assumption. simpl. now rewrite <- app_assoc.
Qed.

Lemma replaceAll_foreign (map : dict) (s : jsstring) :
  forallb headNonAscii map = true -> forallb isAscii s = true ->
  replaceAll map s = s.
Proof.
  unfold replaceAll. induction map as [|[key val] rest IH]; intros Hm Hs.
  - reflexivity.
  - simpl in Hm. apply andb_prop in Hm. destruct Hm as [Hk Hrest].
    cbn [fold_left fst snd].
    destruct key as [|k key]; [discriminate|].
    unfold headNonAscii in Hk. cbn [fst] in Hk.
    apply negb_true_iff in Hk.
    unfold split. rewrite (splitFrom_foreign key [] s k Hk Hs).
    cbn [join rev app]. now apply IH.
Qed.

Lemma upperFrom_ascii (up : jsstring -> jsstring) (s : jsstring) :
  forallb isAscii s = true -> upperFrom up [] s = map asciiUpper s.
Proof.
  induction s as [|c r IH]; intros Hs.
  - reflexivity.
  - simpl in Hs. apply andb_prop in Hs. destruct Hs as [Hc Hr].
    cbn [upperFrom map]. rewrite Hc. cbn [flushRun app].
    now rewrite IH.
Qed.

Lemma collapseFrom_ascii (b : bool) (s : jsstring) :
  forallb isAscii s = true -> forallb isAscii (collapseFrom b s) = true.
Proof.
  revert b. induction s as [|c r IH]; intros b Hs; [reflexivity|].
  simpl in Hs. apply andb_prop in Hs. destruct Hs as [Hc Hr].
  cbn [collapseFrom]. destruct (isSpace c).
  - destruct b; [now apply IH|]. cbn [forallb]. now rewrite IH.
  - cbn [forallb]. rewrite Hc. now apply IH.
Qed.

Lemma trimStart_ascii (s : jsstring) :
  forallb isAscii s = true -> forallb isAscii (trimStart s) = true.
Proof.
  induction s as [|c r IH]; intros Hs; [reflexivity|].
  cbn [trimStart]. destruct (isSpace c); [|assumption].
  simpl in Hs. apply andb_prop in Hs. now apply IH.
Qed.

Lemma trimEnd_ascii (s : jsstring) :
  forallb isAscii s = true -> forallb isAscii (trimEnd s) = true.
Proof.
  induction s as [|c r IH]; intros Hs; [reflexivity|].
  simpl in Hs. apply andb_prop in Hs. destruct Hs as [Hc Hr].
  specialize (IH Hr). cbn [trimEnd].
  destruct (trimEnd r) as [|x r'].
  - destruct (isSpace c); [reflexivity|]. cbn [forallb]. now rewrite Hc.
  - cbn [forallb] in *. now rewrite Hc.
Qed.

Lemma map_upper_ascii (s : jsstring) :
  forallb isAscii s = true -> forallb isAscii (map asciiUpper s) = true.
Proof.
  induction s as [|c r IH]; intros Hs; [reflexivity|].
  simpl in Hs. apply andb_prop in Hs. destruct Hs as [Hc Hr].
  cbn [map forallb]. rewrite (isAscii_asciiUpper c Hc). now apply IH.
Qed.

(** Upper-casing ASCII text commutes with the white-space clean-up. *)
Lemma collapseFrom_upper (b : bool) (s : jsstring) :
  collapseFrom b (map asciiUpper s) = map asciiUpper (collapseFrom b s).
Proof.
  revert b. induction s as [|c r IH]; intros b; [reflexivity|].
  cbn [map collapseFrom]. rewrite isSpace_asciiUpper.
  destruct (isSpace c).
  - destruct b; [apply IH|]. cbn [map]. rewrite asciiUpper_space. f_equal. apply IH.
  - cbn [map]. f_equal. apply IH.
Qed.

Lemma trimStart_upper (s : jsstring) :
  trimStart (map asciiUpper s) = map asciiUpper (trimStart s).
Proof.
  induction s as [|c r IH]; [reflexivity|].
  cbn [map trimStart]. rewrite isSpace_asciiUpper.
  destruct (isSpace c); [apply IH | reflexivity].
Qed.

Lemma trimEnd_upper (s : jsstring) :
  trimEnd (map asciiUpper s) = map asciiUpper (trimEnd s).
Proof.
  induction s as [|c r IH]; [reflexivity|].
  cbn [map trimEnd]. rewrite IH, isSpace_asciiUpper.
  destruct (trimEnd r); cbn [map]; [|reflexivity].
  destruct (isSpace c); reflexivity.
Qed.

Lemma tidy_collapseFrom (b : bool) (s : jsstring) :
  tidy b (collapseFrom b s) = true.
Proof.
  revert b. induction s as [|c r IH]; intros b; [reflexivity|].
  cbn [collapseFrom]. destruct (isSpace c) eqn:Hc.
  - destruct b; [apply IH|]. cbn [tidy]. change (isSpace 32) with true.
    cbn. apply IH.
  - cbn [tidy]. rewrite Hc. apply IH.
Qed.

Lemma collapseFrom_tidy (b : bool) (s : jsstring) :
  tidy b s = true -> collapseFrom b s = s.
Proof.
  revert b. induction s as [|c r IH]; intros b H; [reflexivity|].
  cbn [tidy collapseFrom] in *. destruct (isSpace c).
  - apply andb_prop in H. destruct H as [H Hr].
    apply andb_prop in H. destruct H as [Hc Hb].
    apply N.eqb_eq in Hc. subst c.
    destruct b; [discriminate|]. f_equal. now apply IH.
  - f_equal. now apply IH.
Qed.

Lemma tidy_trimStart (b b' : bool) (s : jsstring) :
  tidy b s = true -> tidy b' (trimStart s) = true.
Proof.
  revert b. induction s as [|c r IH]; intros b H; [reflexivity|].
  cbn [trimStart]. cbn [tidy] in H. destruct (isSpace c) eqn:Hc.
  - apply andb_prop in H. destruct H as [_ Hr]. now apply (IH true).
  - cbn [tidy]. now rewrite Hc.
Qed.

Lemma tidy_trimEnd (b : bool) (s : jsstring) :
  tidy b s = true -> tidy b (trimEnd s) = true.
Proof.
  revert b. induction s as [|c r IH]; intros b H; [reflexivity|].
  cbn [tidy] in H. cbn [trimEnd].
  destruct (isSpace c) eqn:Hc.
  - apply andb_prop in H. destruct H as [H Hr]. apply IH in Hr.
    destruct (trimEnd r) as [|x r']; [reflexivity|].
    cbn [tidy]. rewrite Hc, H. exact Hr.
  - apply IH in H.
    destruct (trimEnd r) as [|x r']; cbn [tidy]; rewrite Hc; [reflexivity|exact H].
Qed.

Lemma startsClean_trimStart (s : jsstring) : startsClean (trimStart s) = true.
Proof.
  induction s as [|c r IH]; [reflexivity|].
  cbn [trimStart]. destruct (isSpace c) eqn:Hc; [exact IH|].
  cbn [startsClean]. now rewrite Hc.
Qed.

Lemma trimStart_clean (s : jsstring) : startsClean s = true -> trimStart s = s.
Proof.
  destruct s as [|c r]; [reflexivity|].
  cbn [startsClean trimStart]. intros H. apply negb_true_iff in H. now rewrite H.
Qed.

Lemma startsClean_trimEnd (s : jsstring) :
  startsClean s = true -> startsClean (trimEnd s) = true.
Proof.
  destruct s as [|c r]; [reflexivity|].
  cbn [startsClean trimEnd]. intros H.
  destruct (trimEnd r); cbn [startsClean]; [|exact H].
  apply negb_true_iff in H. rewrite H. cbn [startsClean]. now rewrite H.
Qed.

Lemma trimEnd_idem (s : jsstring) : trimEnd (trimEnd s) = trimEnd s.
Proof.
  induction s as [|c r IH]; [reflexivity|].
  cbn [trimEnd]. destruct (trimEnd r) as [|x r'] eqn:Hr.
  - destruct (isSpace c) eqn:Hc; [reflexivity|]. cbn [trimEnd]. now rewrite Hc.
  - change (trimEnd (c :: x :: r')) with
      (match trimEnd (x :: r') with
       | [] => if isSpace c then [] else [c]
       | r0 => c :: r0 end).
    now rewrite IH.
Qed.

(** The clean-up of step 3 is a normal form: doing it again changes nothing. *)
Lemma cleanup_idem (s : jsstring) :
  trim (collapseSpaces (trim (collapseSpaces s))) = trim (collapseSpaces s).
Proof.
  unfold trim, collapseSpaces.
  set (u := trimEnd (trimStart (collapseFrom false s))).
  assert (Ht : tidy false u = true).
  { apply tidy_trimEnd, (tidy_trimStart false), tidy_collapseFrom. }
  assert (Hc : startsClean u = true).
  { apply startsClean_trimEnd, startsClean_trimStart. }
  rewrite (collapseFrom_tidy false u Ht), (trimStart_clean u Hc).
  apply trimEnd_idem.
Qed.

Lemma cleanup_ascii (s : jsstring) :
  forallb isAscii s = true -> forallb isAscii (trim (collapseSpaces s)) = true.
Proof.
  intros H. now apply trimEnd_ascii, trimStart_ascii, collapseFrom_ascii.
Qed.

Lemma cleanup_upper (s : jsstring) :
  trim (collapseSpaces (map asciiUpper s))
  = map asciiUpper (trim (collapseSpaces s)).
Proof.
  unfold trim, collapseSpaces.
  now rewrite collapseFrom_upper, trimStart_upper, trimEnd_upper.
Qed.

Lemma tables_foreign :
  forallb headNonAscii PREF_MAP = true /\ forallb headNonAscii SUFFIX_MAP = true.
Proof. split; vm_compute; reflexivity. Qed.

Lemma translateText_ascii_eq (s : jsstring) :
  forallb isAscii s = true ->
  translateText upperNonAscii s = map asciiUpper (trim (collapseSpaces s)).
Proof.
  intros Hs. unfold translateText.
  destruct s as [|c r]; [reflexivity|].
  cbn [truthy negb].
  destruct tables_foreign as [Hp Hx].
  rewrite (replaceAll_foreign PREF_MAP _ Hp Hs).
  rewrite (replaceAll_foreign SUFFIX_MAP _ Hx Hs).
  unfold toUpperCase. apply upperFrom_ascii. now apply cleanup_ascii.
Qed.

(** ** The translator *)

(** C7 (amended): on pure-ASCII input [translateText] returns the input after
    white-space normalisation and upper-casing, the result is again pure
    ASCII, and translating it once more changes nothing. *)
Theorem translateText_ascii_idempotent (s : jsstring) :
  forallb isAscii s = true ->
  translateText upperNonAscii s
    = toUpperCase upperNonAscii (trim (collapseSpaces s))
  /\ forallb isAscii (translateText upperNonAscii s) = true
  /\ translateText upperNonAscii (translateText upperNonAscii s)
     = translateText upperNonAscii s.
Proof.
  intros Hs.
  pose proof (cleanup_ascii s Hs) as Hn.
  assert (Ht : forallb isAscii (translateText upperNonAscii s) = true).
  { rewrite (translateText_ascii_eq s Hs). now apply map_upper_ascii. }
  split; [|split].
  - rewrite (translateText_ascii_eq s Hs). unfold toUpperCase.
    symmetry. now apply upperFrom_ascii.
  - exact Ht.
  - rewrite (translateText_ascii_eq _ Ht).
    rewrite (translateText_ascii_eq s Hs).
    rewrite cleanup_upper, cleanup_idem, map_map.
    apply map_ext. intros c. apply asciiUpper_idem.
Qed.

(** ** The severity classifiers *)

Lemma label_unlisted (scale : Z) :
  (10 <= scale)%Z -> ~ In scale listedCodes ->
  getIntensityLabel scale = utf16 "?".
Proof.
  intros Hge Hnot. unfold getIntensityLabel. cbn [numEq numLt].
  destruct (Z.eqb_spec scale (-1)); [lia|].
  destruct (Z.ltb_spec scale 10); [lia|].
  repeat match goal with
  | |- context [(scale =? ?k)%Z] =>
    destruct (Z.eqb_spec scale k);
    [exfalso; apply Hnot; subst scale; simpl; tauto|]
  end.
  reflexivity.
Qed.

(** C8: [getIntensityLabel] realises the table of the specification; every
    code from 10 upward that is not listed yields "?".  Being a function
    here, it is total. *)
Theorem getIntensityLabel_table :
  getIntensityLabel (-1) = utf16 "UNKNOWN"
  /\ getIntensityLabel 10 = utf16 "1"
  /\ getIntensityLabel 20 = utf16 "2"
  /\ getIntensityLabel 30 = utf16 "3"
  /\ getIntensityLabel 40 = utf16 "4"
  /\ getIntensityLabel 45 = utf16 "5- (LOWER)"
  /\ getIntensityLabel 50 = utf16 "5+ (UPPER)"
  /\ getIntensityLabel 55 = utf16 "6- (LOWER)"
  /\ getIntensityLabel 60 = utf16 "6+ (UPPER)"
  /\ getIntensityLabel 70 = utf16 "7 (MAX)"
  /\ getIntensityLabel 999 = utf16 "?"
  /\ (forall scale : Z, (10 <= scale)%Z -> ~ In scale listedCodes ->
        getIntensityLabel scale = utf16 "?").
Proof.
  repeat (split; [reflexivity|]). exact label_unlisted.
Qed.

Lemma label_cases (scale : Z) :
  (scale = -1 /\ getIntensityLabel scale = utf16 "UNKNOWN")%Z
  \/ (scale < 10 /\ scale <> -1 /\ getIntensityLabel scale = utf16 "0")%Z
  \/ (In scale listedCodes /\ getIntensityLabel scale <> utf16 "?"
      /\ getIntensityLabel scale <> utf16 "UNKNOWN"
      /\ getIntensityLabel scale <> utf16 "0")
  \/ ((10 < scale)%Z /\ ~ In scale listedCodes
      /\ getIntensityLabel scale = utf16 "?").
Proof.
  destruct (Z.eq_dec scale (-1)) as [->|Hm].
  { left. split; reflexivity. }
  destruct (Z_lt_dec scale 10) as [Hlt|Hge].
  { right; left. repeat split; try assumption.
    unfold getIntensityLabel. cbn [numEq numLt].
    destruct (Z.eqb_spec scale (-1)); [contradiction|].
    destruct (Z.ltb_spec scale 10); [reflexivity | lia]. }
  destruct (in_dec Z.eq_dec scale listedCodes) as [Hin|Hnot].
  { right; right; left. split; [assumption|].
    simpl in Hin.
    repeat (destruct Hin as [<-|Hin];
            [repeat split; vm_compute; discriminate|]).
    contradiction. }
  right; right; right.
  assert (scale <> 10%Z) by (intros ->; apply Hnot; simpl; tauto).
  repeat split; [lia | assumption | apply label_unlisted; [lia | assumption]].
Qed.

Lemma label_nan_cases (scale : number) :
  scale = NaN /\ getIntensityLabel scale = utf16 "?"
  \/ exists z : Z, scale = Num z.
Proof.
  destruct scale as [z|]; [right; now exists z | left; split; reflexivity].
Qed.

(** C9 (amended): every scale below 10 other than -1 is labelled "0" (so is
    -2); "UNKNOWN" is the label of -1 alone; "?" is the label of exactly the
    scales above 10 that are none of the listed codes, and of a scale that
    is not a number. *)
Theorem getIntensityLabel_below_ten :
  (forall scale : Z, (scale < 10)%Z -> scale <> (-1)%Z ->
     getIntensityLabel scale = utf16 "0")
  /\ getIntensityLabel (-2) = utf16 "0"
  /\ (forall scale : number,
        getIntensityLabel scale = utf16 "UNKNOWN" <-> scale = Num (-1))
  /\ (forall scale : number,
        getIntensityLabel scale = utf16 "?"
        <-> scale = NaN
            \/ exists z : Z, scale = Num z /\ (10 < z)%Z
                             /\ ~ In z listedCodes).
Proof.
  split; [|split; [reflexivity|split]].
  - intros scale Hlt Hne.
    destruct (label_cases scale) as [[H _]|[(_ & _ & H)|[(Hin & _)|(H & _)]]];
      try assumption; try lia.
    exfalso. simpl in Hin. lia.
  - intros scale. destruct (label_nan_cases scale) as [[-> _]|[z ->]].
    { split; intros H; [vm_compute in H|]; discriminate H. }
    split.
    + intros HU.
      destruct (label_cases z)
        as [[H _]|[(_ & _ & H)|[(_ & _ & H & _)|(_ & _ & H)]]];
        try (now subst z); try contradiction;
        rewrite H in HU; vm_compute in HU; discriminate.
    + intros H. injection H as ->. reflexivity.
  - intros scale. destruct (label_nan_cases scale) as [[-> H]|[z ->]].
    { split; [now left | intros _; exact H]. }
    split.
    + intros HQ. right. exists z. split; [reflexivity|].
      destruct (label_cases z)
        as [[_ H]|[(_ & _ & H)|[(_ & H & _)|(H1 & H2 & _)]]];
        try (split; assumption); try contradiction;
        rewrite H in HQ; vm_compute in HQ; discriminate.
    + intros [H|(z' & H & Hgt & Hnot)]; [discriminate H|].
      injection H as <-. apply label_unlisted; [lia | assumption].
Qed.

(** ** The alert trigger *)

Lemma setLastAlertTime_same (st : Store) :
  setLastAlertTime (lastAlertTime st) st = st.
Proof. destruct st; reflexivity. Qed.

Lemma eqb_refl (t : jsstring) : eqb t t = true.
Proof. unfold eqb. destruct (list_eq_dec N.eq_dec t t); congruence. Qed.

Lemma eqb_eq (a b : jsstring) : eqb a b = true <-> a = b.
Proof.
  unfold eqb. destruct (list_eq_dec N.eq_dec a b); split; congruence.
Qed.

Lemma differs_false (t : jsstring) (last : option jsstring) :
  differs t last = false <-> last = Some t.
Proof.
  destruct last as [l|]; simpl.
  - rewrite negb_false_iff, eqb_eq. split; congruence.
  - split; discriminate.
Qed.

(** One evaluation of the effect does what the specification's reading asks. *)
Lemma alertEffect_spec (st : Store) : alertEffect st = alertSpec st.
Proof.
  unfold alertEffect, alertSpec, candidate, activeTsunami, having.
  destruct (testMode st); [reflexivity|].
  destruct (eewData st) as [eew|].
  { destruct (differs (e_time eew) (lastAlertTime st)); reflexivity. }
  destruct (quakeData st) as [quake|].
  - rewrite Z.geb_leb. destruct (30 <=? q_maxScale quake)%Z.
    + destruct (differs (q_time quake) (lastAlertTime st)); reflexivity.
    + destruct (tsunamiData st) as [tsunami|]; [|reflexivity].
      destruct (t_cancelled tsunami); [reflexivity|]. cbn [negb].
      destruct (differs (t_time tsunami) (lastAlertTime st)); reflexivity.
  - destruct (tsunamiData st) as [tsunami|]; [|reflexivity].
    destruct (t_cancelled tsunami); [reflexivity|]. cbn [negb].
    destruct (differs (t_time tsunami) (lastAlertTime st)); reflexivity.
Qed.

Lemma alertSpec_fires (st st' : Store) (isEEW : bool) :
  alertSpec st = (st', Some isEEW) ->
  exists t, candidate st = Some (t, isEEW)
            /\ differs t (lastAlertTime st) = true /\ truthy t = true
            /\ testMode st = false
            /\ st' = setLastAlertTime (Some t) st.
Proof.
  unfold alertSpec. destruct (testMode st); [discriminate|].
  destruct (candidate st) as [[t b]|]; [|discriminate].
  destruct (differs t (lastAlertTime st)) eqn:Hd; [|discriminate].
  destruct (truthy t) eqn:Ht; [|discriminate].
  cbn [andb]. intros H. injection H as <- <-.
  exists t. repeat split; assumption.
Qed.

Lemma alertSpec_silent (st : Store) (t : jsstring) (isEEW : bool) :
  candidate st = Some (t, isEEW) -> lastAlertTime st = Some t ->
  alertSpec st = (st, None).
Proof.
  intros Hc Hl. unfold alertSpec. rewrite Hc.
  destruct (testMode st); [reflexivity|].
  apply differs_false in Hl. rewrite Hl. reflexivity.
Qed.

Lemma alertSpec_none (st : Store) :
  candidate st = None -> alertSpec st = (st, None).
Proof.
  intros Hc. unfold alertSpec. rewrite Hc. now destruct (testMode st).
Qed.

Lemma alertSpec_quiet (st st' : Store) :
  alertSpec st = (st', None) -> st' = st.
Proof.
  unfold alertSpec. destruct (testMode st); [congruence|].
  destruct (candidate st) as [[t b]|]; [|congruence].
  destruct (differs t (lastAlertTime st) && truthy t);
    [discriminate | congruence].
Qed.

Lemma candidate_setLastAlertTime (v : option jsstring) (st : Store) :
  candidate (setLastAlertTime v st) = candidate st.
Proof. reflexivity. Qed.

Lemma candidate_withData q t e (st st' : Store) :
  candidate (withData q t e st) = candidate (withData q t e st').
Proof. reflexivity. Qed.

(** Running the effect again right after it ran plays nothing. *)
Lemma alertEffect_again (st : Store) :
  alertEffect (fst (alertEffect st)) = (fst (alertEffect st), None).
Proof.
  rewrite !alertEffect_spec.
  destruct (alertSpec st) as [st' [b|]] eqn:H.
  - apply alertSpec_fires in H. destruct H as (t & Hc & _ & _ & _ & ->).
    cbn [fst]. apply (alertSpec_silent _ t b); [exact Hc | reflexivity].
  - cbn [fst]. pose proof (alertSpec_quiet st st' H) as ->. exact H.
Qed.

Lemma alertSpec_again (st : Store) :
  alertEffect (fst (alertSpec st)) = (fst (alertSpec st), None).
Proof. rewrite <- (alertEffect_spec st). apply alertEffect_again. Qed.

Lemma selectedTime_candidate q t e (st : Store) (time : jsstring) :
  sameEvent time (q, t, e) ->
  candidate (withData q t e st) = None
  \/ exists b, candidate (withData q t e st) = Some (time, b).
Proof.
  unfold sameEvent, selectedTime.
  rewrite (candidate_withData q t e st initialStore).
  destruct (candidate (withData q t e initialStore)) as [[t' b]|]; cbn.
  - intros [H|H]; [|discriminate]. injection H as ->. right. now exists b.
  - intros _. now left.
Qed.

Lemma alertEffect_known (st : Store) (t : jsstring) :
  lastAlertTime st = Some t ->
  (candidate st = None \/ exists b, candidate st = Some (t, b)) ->
  alertEffect st = (st, None).
Proof.
  intros Hl Hc. rewrite alertEffect_spec.
  destruct Hc as [Hc|[b Hc]].
  - now apply alertSpec_none.
  - now apply (alertSpec_silent st t b).
Qed.

Lemma alertRun_silent (updates : list update) (st : Store) (t : jsstring) :
  lastAlertTime st = Some t -> Forall (sameEvent t) updates ->
  snd (alertRun updates st) = [].
Proof.
  revert st. induction updates as [|[[q ts] e] rest IH]; intros st Hl Hall.
  - reflexivity.
  - inversion Hall as [|u us Hu Hrest]; subst.
    cbn [alertRun].
    assert (H0 : alertEffect (withData q ts e st) = (withData q ts e st, None)).
    { apply (alertEffect_known _ t); [exact Hl|].
      now apply selectedTime_candidate. }
    rewrite H0, H0.
    specialize (IH (withData q ts e st) Hl Hrest).
    destruct (alertRun rest (withData q ts e st)) as [st3 ps].
    cbn in IH |- *. exact IH.
Qed.

Lemma alertRun_at_most_once (updates : list update) (st : Store) (t : jsstring) :
  Forall (sameEvent t) updates ->
  List.length (snd (alertRun updates st)) <= 1.
Proof.
  revert st. induction updates as [|[[q ts] e] rest IH]; intros st Hall.
  - cbn. lia.
  - inversion Hall as [|u us Hu Hrest]; subst.
    cbn [alertRun].
    pose proof (alertSpec_again (withData q ts e st)) as Hagain.
    rewrite (alertEffect_spec (withData q ts e st)).
    destruct (alertSpec (withData q ts e st)) as [st1 [b|]] eqn:H1;
      cbn [fst] in Hagain; rewrite Hagain.
    + apply alertSpec_fires in H1.
      destruct H1 as (t' & Hc & _ & _ & _ & ->).
      destruct (selectedTime_candidate q ts e st t Hu) as [Hn|[b' Hs]];
        [congruence|].
      assert (t' = t) by congruence. subst t'.
      pose proof (alertRun_silent rest
                    (setLastAlertTime (Some t) (withData q ts e st)) t
                    eq_refl Hrest) as Hsil.
      destruct (alertRun rest _) as [st3 ps]. cbn in Hsil |- *.
      subst ps. cbn. lia.
    + specialize (IH st1 Hrest).
      destruct (alertRun rest st1) as [st3 ps]. cbn in IH |- *. exact IH.
Qed.

(** C1 (amended): sounds are deduplicated against the last alerted time.  A
    sound is played only for the selected record and sets [lastAlertTime] to
    its time; an evaluation whose selected record carries the last alerted
    time plays nothing and changes nothing; over any run of updates that keep
    selecting the same time at most one sound is played, and two consecutive
    updates with the same, not yet alerted, time play exactly one. *)
Theorem alert_dedup :
  (forall (st st' : Store) (isEEW : bool),
     alertEffect st = (st', Some isEEW) ->
     exists t, candidate st = Some (t, isEEW) /\ lastAlertTime st' = Some t)
  /\ (forall (st : Store) (t : jsstring) (isEEW : bool),
        candidate st = Some (t, isEEW) -> lastAlertTime st = Some t ->
        alertEffect st = (st, None))
  /\ (forall (updates : list update) (st : Store) (t : jsstring),
        Forall (sameEvent t) updates ->
        List.length (snd (alertRun updates st)) <= 1)
  /\ (forall (u1 u2 : update) (st : Store) (t : jsstring),
        testMode st = false -> truthy t = true ->
        lastAlertTime st <> Some t ->
        selectedTime u1 = Some t -> selectedTime u2 = Some t ->
        List.length (snd (alertRun [u1; u2] st)) = 1).
Proof.
  split; [|split; [|split]].
  - intros st st' isEEW H. rewrite alertEffect_spec in H.
    apply alertSpec_fires in H. destruct H as (t & Hc & _ & _ & _ & ->).
    exists t. split; [exact Hc | reflexivity].
  - intros st t isEEW Hc Hl. rewrite alertEffect_spec.
    now apply (alertSpec_silent st t isEEW).
  - intros updates st t. apply alertRun_at_most_once.
  - intros [[q1 t1] e1] [[q2 t2] e2] st t Htest Ht Hlast H1 H2.
    cbn [alertRun].
    pose proof (alertEffect_again (withData q1 t1 e1 st)) as Hagain.
    destruct (selectedTime_candidate q1 t1 e1 st t (or_introl H1))
      as [Hn|[b Hc]].
    { unfold selectedTime in H1.
      rewrite (candidate_withData q1 t1 e1 initialStore st), Hn in H1.
      discriminate. }
    assert (Hfire : alertEffect (withData q1 t1 e1 st)
                    = (setLastAlertTime (Some t) (withData q1 t1 e1 st), Some b)).
    { rewrite alertEffect_spec. unfold alertSpec.
      change (testMode (withData q1 t1 e1 st)) with (testMode st).
      rewrite Htest, Hc.
      change (lastAlertTime (withData q1 t1 e1 st)) with (lastAlertTime st).
      destruct (differs t (lastAlertTime st)) eqn:Hd.
      - rewrite Ht. reflexivity.
      - apply differs_false in Hd. contradiction. }
    rewrite Hfire in Hagain |- *. cbn [fst] in Hagain. rewrite Hagain.
    pose proof (alertRun_silent [(q2, t2, e2)]
                  (setLastAlertTime (Some t) (withData q1 t1 e1 st)) t
                  eq_refl (Forall_cons _ (or_introl H2) (Forall_nil _)))
      as Hsil.
    cbn [alertRun] in Hsil.
    destruct (alertEffect (withData q2 t2 e2 _)) as [sa pa].
    destruct (alertEffect sa) as [sb pb].
    cbn [snd sounds app] in Hsil |- *. rewrite Hsil. reflexivity.
Qed.

(** C2: the trigger is the selection by strict priority (an early warning
    when one is present; otherwise an earthquake of scale 30 or more;
    otherwise a tsunami record that is not cancelled) followed by the
    comparison with the last alerted time; a sound is played only for the
    record so selected, with the early-warning tone exactly for an early
    warning; and with nothing to select nothing is played. *)
Theorem alert_priority (st : Store) :
  alertEffect st = alertSpec st
  /\ (forall (st' : Store) (isEEW : bool),
        alertEffect st = (st', Some isEEW) ->
        match eewData st with
        | Some eew => isEEW = true /\ lastAlertTime st' = Some (e_time eew)
        | None =>
          isEEW = false
          /\ match having (quakeData st) (fun q => (30 <=? q_maxScale q)%Z) with
             | Some quake => lastAlertTime st' = Some (q_time quake)
             | None =>
               match tsunamiData st with
               | Some tsunami =>
                 t_cancelled tsunami = false
                 /\ lastAlertTime st' = Some (t_time tsunami)
               | None => False
               end
             end
        end)
  /\ (candidate st = None -> alertEffect st = (st, None)).
Proof.
  split; [apply alertEffect_spec|]. split.
  2:{ intros Hc. rewrite alertEffect_spec. now apply alertSpec_none. }
  intros st' isEEW H.
  rewrite alertEffect_spec in H. apply alertSpec_fires in H.
  destruct H as (t & Hc & _ & _ & _ & ->).
  unfold candidate, activeTsunami, having in *. cbn [lastAlertTime setLastAlertTime].
  destruct (eewData st) as [eew|].
  { injection Hc as <- <-. split; reflexivity. }
  destruct (quakeData st) as [quake|].
  - rewrite Z.geb_leb in Hc. destruct (30 <=? q_maxScale quake)%Z.
    + injection Hc as <- <-. split; reflexivity.
    + destruct (tsunamiData st) as [tsunami|]; [|discriminate].
      destruct (t_cancelled tsunami); [discriminate|].
      injection Hc as <- <-. repeat split.
  - destruct (tsunamiData st) as [tsunami|]; [|discriminate].
    destruct (t_cancelled tsunami); [discriminate|].
    injection Hc as <- <-. repeat split.
Qed.

(** ** Polling *)

Lemma store_eta (st : Store) :
  st = setLoading (loading st)
         (setEewData (eewData st)
            (setTsunamiData (tsunamiData st) (setQuakeData (quakeData st) st))).
Proof. destruct st; reflexivity. Qed.

Lemma processQuake_cases (res : bool * Body QuakeItem) (st : Store) :
  exists v, fst (processQuake res st) = setQuakeData v st
            /\ (v = quakeData st \/ exists q, v = Some q).
Proof.
  destruct res as [ok body]. unfold processQuake, latest, bind, deref, ret, throw, set.
  assert (Hsame : exists v, st = setQuakeData v st
                            /\ (v = quakeData st \/ exists q, v = Some q)).
  { exists (quakeData st). split; [destruct st; reflexivity | now left]. }
  destruct ok; [|exact Hsame].
  destruct body as [| | |[|[item|] rest]]; try exact Hsame.
  cbn. destruct (qi_earthquake item) as [q|]; [|exact Hsame].
  destruct (qe_hypocenter q) as [h|]; [|exact Hsame].
  cbn. eexists. split; [reflexivity|]. right. eexists. reflexivity.
Qed.

Lemma processQuake_skips (ok : bool) (body : Body QuakeItem) (st : Store) :
  unusable (Http ok body) || quakeDeficient (Http ok body) = true ->
  fst (processQuake (ok, body) st) = st.
Proof.
  unfold processQuake, latest, bind, deref, ret, throw, set.
  destruct ok; [|reflexivity].
  destruct body as [| | |[|[item|] rest]]; try reflexivity.
  cbn. destruct (qi_earthquake item) as [q|]; [|reflexivity].
  destruct (qe_hypocenter q) as [h|]; [discriminate | reflexivity].
Qed.

Lemma processTsunami_cases (res : bool * Body TsunamiItem) (st : Store) :
  exists v, fst (processTsunami res st) = setTsunamiData v st.
Proof.
  destruct res as [ok body].
  unfold processTsunami, latest, bind, deref, ret, throw, set.
  assert (Hsame : exists v, st = setTsunamiData v st).
  { exists (tsunamiData st). destruct st; reflexivity. }
  destruct ok; [|exact Hsame].
  destruct body as [| | |[|[item|] rest]]; try exact Hsame.
  - cbn. destruct (ti_areas item); cbn; eexists; reflexivity.
  - cbn. eexists; reflexivity.
Qed.

Lemma processTsunami_skips (ok : bool) (body : Body TsunamiItem) (st : Store) :
  unusable (Http ok body) = true -> fst (processTsunami (ok, body) st) = st.
Proof.
  unfold processTsunami, latest, bind, deref, ret, throw, set.
  destruct ok; [|reflexivity].
  destruct body as [| | |[|first rest]]; try reflexivity. discriminate.
Qed.

Lemma processEEW_cases (now : Z) (res : bool * Body EewItem) (st : Store) :
  exists v, fst (processEEW now res st) = setEewData v st
            /\ (v = eewData st \/ v = None
                \/ exists r, v = Some r /\ e_isCancelled r = false).
Proof.
  destruct res as [ok body].
  unfold processEEW, latest, bind, deref, ret, throw, set.
  assert (Hsame : exists v, st = setEewData v st
            /\ (v = eewData st \/ v = None
                \/ exists r, v = Some r /\ e_isCancelled r = false)).
  { exists (eewData st). split; [destruct st; reflexivity | now left]. }
  destruct ok; [|exact Hsame].
  destruct body as [| | |[|[item|] rest]]; try exact Hsame.
  cbn. destruct (isRecent now (ei_time item)); cbn.
  - destruct (ei_cancelled item) eqn:Hc; cbn.
    + exists None. split; [reflexivity | now right; left].
    + destruct (ei_earthquake item) as [area|]; [|exact Hsame].
      destruct (ee_hypocenter area) as [h|]; [|exact Hsame].
      cbn. destruct (ei_issue item) as [issue|]; [|exact Hsame].
      cbn. eexists. split; [reflexivity|]. right; right.
      eexists. split; reflexivity.
  - exists None. split; [reflexivity | now right; left].
Qed.

Lemma processEEW_skips (now : Z) (ok : bool) (body : Body EewItem) (st : Store) :
  unusable (Http ok body) = true -> fst (processEEW now (ok, body) st) = st.
Proof.
  unfold processEEW, latest, bind, deref, ret, throw, set.
  destruct ok; [|reflexivity].
  destruct body as [| | |[|first rest]]; try reflexivity. discriminate.
Qed.

(** What a poll can do to the store: it rewrites the three records and the
    loading flag, nothing else. *)
Lemma fetchData_cases (rq : Response QuakeItem) (rt : Response TsunamiItem)
  (re : Response EewItem) (now : Z) (st : Store) :
  exists l vq vt ve,
    fetchData rq rt re now st
    = setLoading l (setEewData ve (setTsunamiData vt (setQuakeData vq st)))
    /\ (vq = quakeData st \/ exists q, vq = Some q)
    /\ (unusable rq || quakeDeficient rq = true -> vq = quakeData st)
    /\ (unusable rt = true -> vt = tsunamiData st)
    /\ (unusable re = true -> ve = eewData st)
    /\ (ve = eewData st \/ ve = None
        \/ exists r, ve = Some r /\ e_isCancelled r = false).
Proof.
  assert (Hkeep : forall l, exists l' vq vt ve,
    setLoading l st
    = setLoading l' (setEewData ve (setTsunamiData vt (setQuakeData vq st)))
    /\ (vq = quakeData st \/ exists q, vq = Some q)
    /\ (unusable rq || quakeDeficient rq = true -> vq = quakeData st)
    /\ (unusable rt = true -> vt = tsunamiData st)
    /\ (unusable re = true -> ve = eewData st)
    /\ (ve = eewData st \/ ve = None
        \/ exists r, ve = Some r /\ e_isCancelled r = false)).
  { intros l. exists l, (quakeData st), (tsunamiData st), (eewData st).
    split; [destruct st; reflexivity|]. repeat split; auto. }
  unfold fetchData. destruct (testMode st).
  { destruct (Hkeep (loading st)) as (l & vq & vt & ve & H & Hr).
    exists l, vq, vt, ve. split; [|exact Hr]. rewrite <- H.
    destruct st; reflexivity. }
  unfold fetchBody, awaitAll, bind, ret, throw.
  destruct rq as [|okq bq]; [apply (Hkeep false)|].
  destruct rt as [|okt bt]; [apply (Hkeep false)|].
  destruct re as [|oke be]; [apply (Hkeep false)|].
  destruct (processQuake_cases (okq, bq) (setLoading true st))
    as (vq & Hq & Hvq).
  pose proof (processQuake_skips okq bq (setLoading true st)) as Hqs.
  destruct (processQuake (okq, bq) (setLoading true st)) as [s1 r1].
  cbn [fst] in Hq, Hqs. subst s1.
  assert (Hvq' : unusable (Http okq bq) || quakeDeficient (Http okq bq) = true
                 -> vq = quakeData st).
  { intros Hu. apply Hqs in Hu.
    apply (f_equal quakeData) in Hu. exact Hu. }
  destruct r1 as [[]|].
  2:{ exists false, vq, (tsunamiData st), (eewData st).
      split; [destruct st; reflexivity|]. repeat split; auto. }
  destruct (processTsunami_cases (okt, bt) (setQuakeData vq (setLoading true st)))
    as (vt & Ht).
  pose proof (processTsunami_skips okt bt (setQuakeData vq (setLoading true st)))
    as Hts.
  destruct (processTsunami (okt, bt) _) as [s2 r2].
  cbn [fst] in Ht, Hts. subst s2.
  assert (Hvt' : unusable (Http okt bt) = true -> vt = tsunamiData st).
  { intros Hu. apply Hts in Hu.
    apply (f_equal tsunamiData) in Hu. exact Hu. }
  destruct r2 as [[]|].
  2:{ exists false, vq, vt, (eewData st).
      split; [destruct st; reflexivity|]. repeat split; auto. }
  destruct (processEEW_cases now (oke, be)
              (setTsunamiData vt (setQuakeData vq (setLoading true st))))
    as (ve & He & Hve).
  pose proof (processEEW_skips now oke be
                (setTsunamiData vt (setQuakeData vq (setLoading true st))))
    as Hes.
  destruct (processEEW now (oke, be) _) as [s3 r3].
  cbn [fst] in He, Hes. subst s3.
  exists false, vq, vt, ve.
  split; [destruct st; reflexivity|].
  repeat split; auto.
  intros Hu. apply Hes in Hu. apply (f_equal eewData) in Hu. exact Hu.
Qed.

Lemma isRecent_stale (now ev : Z) (time : jsstring) :
  dateTime time = Some ev -> (freshnessWindow <= now - ev)%Z ->
  isRecent now time = false.
Proof.
  intros Hd Hge. unfold isRecent. rewrite Hd. apply Z.ltb_ge. exact Hge.
Qed.

Lemma isRecent_fresh (now ev : Z) (time : jsstring) :
  dateTime time = Some ev -> (now - ev < freshnessWindow)%Z ->
  isRecent now time = true.
Proof.
  intros Hd Hlt. unfold isRecent. rewrite Hd. apply Z.ltb_lt. exact Hlt.
Qed.

Lemma processEEW_discards (now : Z) (item : EewItem)
  (rest : list (option EewItem)) (st : Store) :
  isRecent now (ei_time item) = false \/ ei_cancelled item = true ->
  processEEW now (true, Items (Some item :: rest)) st
  = (setEewData None st, Some tt).
Proof.
  intros H. unfold processEEW, latest, bind, deref, ret, set. cbn.
  destruct H as [H|H]; rewrite H.
  - reflexivity.
  - now rewrite andb_false_r.
Qed.

Lemma processEEW_stores (now : Z) (item : EewItem)
  (rest : list (option EewItem)) (st : Store)
  (area : EewEarthquakeJson) (h : HypocenterJson) (issue : IssueJson) :
  isRecent now (ei_time item) = true -> ei_cancelled item = false ->
  ei_earthquake item = Some area -> ee_hypocenter area = Some h ->
  ei_issue item = Some issue ->
  processEEW now (true, Items (Some item :: rest)) st
  = (setEewData (Some {|
       e_time := ei_time item;
       e_hypocenter := translateText upperNonAscii (h_name h);
       e_magnitude := h_magnitude h;
       e_maxScale := orMinusOne (ee_maxScale area);
       e_isCancelled := ei_cancelled item;
       e_isWarning := eqb (issue_type issue) (utf16 "Warning") |}) st,
     Some tt).
Proof.
  intros Hr Hc Ha Hh Hi.
  unfold processEEW, latest, bind, deref, ret, set. cbn.
  rewrite Hr, Hc, Ha. cbn. rewrite Hh, Hi. reflexivity.
Qed.

Lemma fetchData_reaches_eew (okq okt : bool) (bq : Body QuakeItem)
  (bt : Body TsunamiItem) (re : bool * Body EewItem) (now : Z)
  (st s1 s2 : Store) :
  testMode st = false ->
  processQuake (okq, bq) (setLoading true st) = (s1, Some tt) ->
  processTsunami (okt, bt) s1 = (s2, Some tt) ->
  fetchData (Http okq bq) (Http okt bt) (Http (fst re) (snd re)) now st
  = setLoading false (fst (processEEW now re s2)).
Proof.
  intros Ht Hq Hts. unfold fetchData. rewrite Ht.
  unfold fetchBody, awaitAll, bind, ret. rewrite Hq, Hts.
  destruct re as [oke be]. cbn [fst snd].
  destruct (processEEW now (oke, be) s2) as [s3 r3]. reflexivity.
Qed.

(** C3 (amended): in a poll that gets to the early-warning block (test mode
    off, the earthquake and tsunami blocks completed) and finds a non-empty
    list whose first item is an object, the record is cleared if the item's
    event time lies a full freshness window (3 * 60 * 1000 ms) or more before
    now, or if the item is cancelled; a fresh, non-cancelled item with its
    earthquake field, the hypocenter in it and its issue field is stored as
    the new record, built from the item. *)
Theorem eew_poll_freshness (now : Z) (item : EewItem)
  (rest : list (option EewItem)) (okq okt : bool) (bq : Body QuakeItem)
  (bt : Body TsunamiItem) (st s1 s2 : Store) :
  testMode st = false ->
  processQuake (okq, bq) (setLoading true st) = (s1, Some tt) ->
  processTsunami (okt, bt) s1 = (s2, Some tt) ->
  let st' := fetchData (Http okq bq) (Http okt bt)
               (Http true (Items (Some item :: rest))) now st in
  freshnessWindow = 180000%Z
  /\ (forall ev : Z, dateTime (ei_time item) = Some ev ->
        (freshnessWindow <= now - ev)%Z -> eewData st' = None)
  /\ (ei_cancelled item = true -> eewData st' = None)
  /\ (forall (ev : Z) (area : EewEarthquakeJson) (h : HypocenterJson)
        (issue : IssueJson),
        dateTime (ei_time item) = Some ev ->
        (now - ev < freshnessWindow)%Z ->
        ei_cancelled item = false ->
        ei_earthquake item = Some area -> ee_hypocenter area = Some h ->
        ei_issue item = Some issue ->
        eewData st' = Some {|
          e_time := ei_time item;
          e_hypocenter := translateText upperNonAscii (h_name h);
          e_magnitude := h_magnitude h;
          e_maxScale := orMinusOne (ee_maxScale area);
          e_isCancelled := false;
          e_isWarning := eqb (issue_type issue) (utf16 "Warning") |}).
Proof.
  intros Ht Hq Hts st'.
  assert (Hst : st' = setLoading false
            (fst (processEEW now (true, Items (Some item :: rest)) s2))).
  { apply (fetchData_reaches_eew okq okt bq bt
             (true, Items (Some item :: rest)) now st s1 s2 Ht Hq Hts). }
  split; [reflexivity|]. split; [|split].
  - intros ev Hd Hge. rewrite Hst.
    rewrite processEEW_discards; [reflexivity|].
    left. now apply (isRecent_stale now ev).
  - intros Hc. rewrite Hst.
    rewrite processEEW_discards; [reflexivity | now right].
  - intros ev area h issue Hd Hlt Hc Ha Hh Hi. rewrite Hst.
    rewrite (processEEW_stores now item rest s2 area h issue);
      try assumption; [|now apply (isRecent_fresh now ev)].
    cbn. now rewrite Hc.
Qed.

(** C5 (amended): a rejected fetch, a status that is not ok, a blank or
    unparseable body, a body that is not an array and an empty array leave
    the stored record of that feed as it was; the earthquake record is also
    kept when the first item lacks its earthquake or hypocenter field, and a
    poll never clears it. *)
Theorem poll_keeps_record (rq : Response QuakeItem) (rt : Response TsunamiItem)
  (re : Response EewItem) (now : Z) (st : Store) :
  let st' := fetchData rq rt re now st in
  (unusable rq = true -> quakeData st' = quakeData st)
  /\ (unusable rt = true -> tsunamiData st' = tsunamiData st)
  /\ (unusable re = true -> eewData st' = eewData st)
  /\ (quakeDeficient rq = true -> quakeData st' = quakeData st)
  /\ (quakeData st <> None -> quakeData st' <> None).
Proof.
  intros st'. subst st'.
  destruct (fetchData_cases rq rt re now st)
    as (l & vq & vt & ve & -> & Hvq & Hq & Ht & He & _).
  cbn. repeat split.
  - intros Hu. apply Hq. now rewrite Hu.
  - exact Ht.
  - exact He.
  - intros Hu. apply Hq. rewrite Hu. apply orb_true_r.
  - intros Hne. destruct Hvq as [->|[q ->]]; [exact Hne | discriminate].
Qed.

Lemma fetchData_eewLive (rq : Response QuakeItem) (rt : Response TsunamiItem)
  (re : Response EewItem) (now : Z) (st : Store) :
  eewLive st -> eewLive (fetchData rq rt re now st).
Proof.
  intros Hl.
  destruct (fetchData_cases rq rt re now st)
    as (l & vq & vt & ve & -> & _ & _ & _ & _ & Hve).
  unfold eewLive in *. cbn.
  destruct Hve as [->|[->|(r & -> & Hr)]]; [exact Hl | exact I | exact Hr].
Qed.

(** ** Mode selection and the widget as a machine *)

Lemma alertEffect_setActiveMode (m : DisplayMode) (st : Store) :
  alertEffect (setActiveMode m st)
  = (setActiveMode m (fst (alertEffect st)), snd (alertEffect st)).
Proof.
  rewrite !alertEffect_spec. unfold alertSpec.
  change (candidate (setActiveMode m st)) with (candidate st).
  change (testMode (setActiveMode m st)) with (testMode st).
  change (lastAlertTime (setActiveMode m st)) with (lastAlertTime st).
  destruct (testMode st); [reflexivity|].
  destruct (candidate st) as [[t b]|]; [|reflexivity].
  destruct (differs t (lastAlertTime st) && truthy t); reflexivity.
Qed.

Lemma alertEffect_frame (st : Store) :
  exists v, fst (alertEffect st) = setLastAlertTime v st.
Proof.
  rewrite alertEffect_spec. unfold alertSpec.
  assert (Hsame : exists v, st = setLastAlertTime v st).
  { exists (lastAlertTime st). destruct st; reflexivity. }
  destruct (testMode st); [exact Hsame|].
  destruct (candidate st) as [[t b]|]; [|exact Hsame].
  destruct (differs t (lastAlertTime st) && truthy t); [|exact Hsame].
  eexists; reflexivity.
Qed.

Lemma modeEffect_again (st : Store) :
  fst (modeEffect (fst (modeEffect st))) = fst (modeEffect st).
Proof.
  unfold modeEffect. destruct st as [q t e l tm am la]. cbn.
  destruct tm; cbn; [reflexivity|].
  destruct e; cbn; [reflexivity|].
  destruct am; reflexivity.
Qed.

Lemma modeEffect_setLastAlertTime (v : option jsstring) (st : Store) :
  fst (modeEffect (setLastAlertTime v st))
  = setLastAlertTime v (fst (modeEffect st)).
Proof.
  unfold modeEffect. destruct st as [q t e l tm am la]. cbn.
  destruct tm; cbn; [reflexivity|].
  destruct e; cbn; [reflexivity|].
  destruct am; reflexivity.
Qed.

Lemma modeEffect_frame (st : Store) :
  exists m, fst (modeEffect st) = setActiveMode m st.
Proof.
  unfold modeEffect.
  assert (Hsame : exists m, st = setActiveMode m st).
  { exists (activeMode st). destruct st; reflexivity. }
  destruct (testMode st); [exact Hsame|].
  destruct (eewData st); cbn [fst]; [eexists; reflexivity|].
  destruct (modeEqb (activeMode st) EEW); [eexists; reflexivity | exact Hsame].
Qed.

Lemma settled_iff (st : Store) :
  settled st <-> alertEffect st = (st, None) /\ fst (modeEffect st) = st.
Proof.
  unfold settled, runEffects. split.
  - intros H. destruct (alertEffect st) as [s1 p] eqn:Ha.
    destruct (modeEffect s1) as [s2 i] eqn:Hm.
    injection H as H2 Hp. subst s2.
    destruct p; [discriminate|].
    rewrite alertEffect_spec in Ha. apply alertSpec_quiet in Ha. subst s1.
    split; [reflexivity|]. now rewrite Hm.
  - intros [Ha Hm]. rewrite Ha.
    destruct (modeEffect st) as [s2 i]. cbn in Hm. now subst s2.
Qed.

Lemma runEffects_fst (st : Store) :
  fst (runEffects st) = fst (modeEffect (fst (alertEffect st))).
Proof.
  unfold runEffects. destruct (alertEffect st) as [s1 p]. cbn [fst].
  destruct (modeEffect s1); reflexivity.
Qed.

Lemma runEffects_settled (st : Store) : settled (fst (runEffects st)).
Proof.
  apply settled_iff. rewrite runEffects_fst.
  destruct (alertEffect_frame st) as [v Hv].
  pose proof (alertEffect_again st) as Hag.
  rewrite Hv in Hag |- *.
  destruct (modeEffect_frame (setLastAlertTime v st)) as [m Hm].
  split.
  - rewrite Hm, alertEffect_setActiveMode, Hag. reflexivity.
  - apply modeEffect_again.
Qed.

Lemma settle_eq (st : Store) : settle st = runEffects st.
Proof.
  unfold settle. pose proof (runEffects_settled st) as H.
  destruct (runEffects st) as [s1 p1]. cbn [fst] in H.
  unfold settled in H. rewrite H. now rewrite app_nil_r.
Qed.

Lemma settle_settled (st : Store) : settled (fst (settle st)).
Proof. rewrite settle_eq. apply runEffects_settled. Qed.

Lemma settle_of_settled (st : Store) : settled st -> settle st = (st, []).
Proof. intros H. rewrite settle_eq. exact H. Qed.

Lemma step_settled (ev : Event) (st : Store) : settled (fst (step ev st)).
Proof.
  unfold step. destruct (handle ev st) as [s1 p1].
  pose proof (settle_settled s1) as H.
  destruct (settle s1) as [s2 p2]. exact H.
Qed.

Lemma run_settled (evs : list Event) (st : Store) :
  settled st -> settled (fst (run evs st)).
Proof.
  revert st. induction evs as [|ev rest IH]; intros st H; [exact H|].
  cbn [run]. pose proof (step_settled ev st) as Hs.
  destruct (step ev st) as [s1 p1]. cbn [fst] in Hs.
  specialize (IH s1 Hs). destruct (run rest s1) as [s2 p2]. exact IH.
Qed.

Lemma settle_frame (st : Store) :
  exists v m, fst (settle st) = setActiveMode m (setLastAlertTime v st)
    /\ (testMode st = true -> m = activeMode st)
    /\ (testMode st = false -> isEEWActive st = true -> m = EEW).
Proof.
  rewrite settle_eq, runEffects_fst.
  destruct (alertEffect_frame st) as [v ->].
  exists v. unfold modeEffect, isEEWActive. cbn [testMode eewData activeMode setLastAlertTime].
  destruct (testMode st).
  - exists (activeMode st). split; [destruct st; reflexivity|].
    split; [reflexivity | discriminate].
  - destruct (eewData st).
    + exists EEW. cbn. repeat split; discriminate.
    + destruct (modeEqb (activeMode st) EEW).
      * exists EARTHQUAKE. cbn. repeat split; discriminate.
      * exists (activeMode st). cbn. split; [destruct st; reflexivity|].
        split; discriminate.
Qed.

Lemma clickTab_cases (m : DisplayMode) (st : Store) :
  clickTab m st = st
  \/ (eewData st = None /\ clickTab m st = setActiveMode m st).
Proof.
  unfold clickTab, tabsDisabled, isEEWActive.
  destruct (eewData st); [now left | now right].
Qed.

Lemma initial_settled : settled initialStore.
Proof. reflexivity. Qed.

Lemma run_invariant (P : Store -> Prop) :
  (forall ev st, settled st -> P st -> P (fst (step ev st))) ->
  forall evs st, settled st -> P st -> P (fst (run evs st)).
Proof.
  intros Hstep evs. induction evs as [|ev rest IH]; intros st Hs HP.
  - exact HP.
  - cbn [run]. pose proof (step_settled ev st) as Hs1.
    pose proof (Hstep ev st Hs HP) as HP1.
    destruct (step ev st) as [s1 p1]. cbn [fst] in *.
    specialize (IH s1 Hs1 HP1). destruct (run rest s1) as [s2 p2]. exact IH.
Qed.

Lemma step_fst (ev : Event) (st : Store) :
  fst (step ev st) = fst (settle (fst (handle ev st))).
Proof.
  unfold step. destruct (handle ev st) as [s1 p1]. cbn [fst].
  destruct (settle s1); reflexivity.
Qed.

Lemma run_cons_fst (ev : Event) (rest : list Event) (st : Store) :
  fst (run (ev :: rest) st) = fst (run rest (fst (step ev st))).
Proof.
  cbn [run]. destruct (step ev st) as [s1 p1]. cbn [fst].
  destruct (run rest s1); reflexivity.
Qed.

(** What the blocks of a poll, its beginning and its end can write. *)
Lemma handle_poll_frame (ev : Event) (st : Store) :
  match ev with
  | PollBegin | PollEnd =>
    exists l, fst (handle ev st) = setLoading l st
  | QuakeArrives _ => exists v, fst (handle ev st) = setQuakeData v st
  | TsunamiArrives _ => exists v, fst (handle ev st) = setTsunamiData v st
  | EewArrives _ _ =>
    exists v, fst (handle ev st) = setEewData v st
              /\ (v = eewData st \/ v = None
                  \/ exists r, v = Some r /\ e_isCancelled r = false)
  | _ => True
  end.
Proof.
  destruct ev as [|res|res|res now| | | | |isoE isoQ]; cbn [handle fst];
    try exact I.
  - destruct (testMode st); [exists (loading st); destruct st | eexists];
      reflexivity.
  - destruct (processQuake_cases res st) as (v & H & _). now exists v.
  - apply processTsunami_cases.
  - apply processEEW_cases.
  - eexists; reflexivity.
Qed.

Lemma handle_eewLive (ev : Event) (st : Store) :
  eewLive st -> eewLive (fst (handle ev st)).
Proof.
  intros Hl. pose proof (handle_poll_frame ev st) as Hf.
  destruct ev as [|res|res|res now| | | | |isoE isoQ].
  - destruct Hf as [l ->]. exact Hl.
  - destruct Hf as [v ->]. exact Hl.
  - destruct Hf as [v ->]. exact Hl.
  - destruct Hf as (v & -> & Hv). unfold eewLive in *. cbn.
    destruct Hv as [->|[->|(r & -> & Hr)]]; [exact Hl | exact I | exact Hr].
  - destruct Hf as [l ->]. exact Hl.
  - cbn [handle fst].
    destruct (clickTab_cases EARTHQUAKE st) as [->|[_ ->]]; exact Hl.
  - cbn [handle fst].
    destruct (clickTab_cases TSUNAMI st) as [->|[_ ->]]; exact Hl.
  - cbn [handle]. destruct (armed st) as [i|]; cbn [fst]; [|exact Hl].
    unfold rotationTick. destruct (negb _); exact Hl.
  - cbn [handle]. unfold toggleTestMode, eewLive.
    destruct (negb (testMode st)); cbn; [reflexivity | exact I].
Qed.

Lemma settle_data (st : Store) :
  testMode (fst (settle st)) = testMode st
  /\ eewData (fst (settle st)) = eewData st
  /\ tsunamiData (fst (settle st)) = tsunamiData st
  /\ quakeData (fst (settle st)) = quakeData st.
Proof.
  destruct (settle_frame st) as (v & m & -> & _). repeat split.
Qed.

Lemma settle_forced (st : Store) :
  testMode st = false -> forced (fst (settle st)).
Proof.
  intros Ht. destruct (settle_frame st) as (v & m & -> & _ & Hm).
  unfold forced, isEEWActive in *. cbn. now apply Hm.
Qed.

Lemma reachable_eewLive (evs : list Event) :
  eewLive (fst (run evs initialStore)).
Proof.
  apply (run_invariant eewLive).
  - intros ev st _ Hl. rewrite step_fst.
    pose proof (handle_eewLive ev st Hl) as H.
    unfold eewLive in *.
    now rewrite (proj1 (proj2 (settle_data (fst (handle ev st))))).
  - apply initial_settled.
  - exact I.
Qed.

(** Outside test mode the display is on the early warning whenever one is
    present, in every state the widget reaches. *)
Lemma reachable_forced (evs : list Event) :
  testMode (fst (run evs initialStore)) = false ->
  forced (fst (run evs initialStore)).
Proof.
  apply (run_invariant (fun st => testMode st = false -> forced st)).
  - intros ev st _ _. rewrite step_fst.
    rewrite (proj1 (settle_data (fst (handle ev st)))).
    apply settle_forced.
  - apply initial_settled.
  - intros _ H. discriminate H.
Qed.


Lemma click_disabled (m : DisplayMode) (st : Store) :
  isEEWActive st = true -> clickTab m st = st.
Proof. intros H. unfold clickTab, tabsDisabled. now rewrite H. Qed.



Lemma settled_not_eew (st : Store) :
  testMode st = false -> eewData st = None -> settled st ->
  modeEqb (activeMode st) EEW = false.
Proof.
  intros Ht He Hs. apply settled_iff in Hs. destruct Hs as [_ Hm].
  unfold modeEffect in Hm. rewrite Ht, He in Hm.
  destruct (modeEqb (activeMode st) EEW) eqn:Hq; [|reflexivity].
  cbn [fst] in Hm. apply (f_equal activeMode) in Hm. cbn in Hm.
  rewrite <- Hm in Hq. discriminate.
Qed.

Lemma settled_setActiveMode (m : DisplayMode) (st : Store) :
  testMode st = false -> eewData st = None -> settled st ->
  modeEqb m EEW = false -> settled (setActiveMode m st).
Proof.
  intros Ht He Hs Hm. apply settled_iff. apply settled_iff in Hs.
  destruct Hs as [Ha _]. split.
  - rewrite alertEffect_setActiveMode, Ha. reflexivity.
  - unfold modeEffect. cbn [testMode eewData activeMode setActiveMode].
    rewrite Ht, He, Hm. reflexivity.
Qed.

Lemma rotate_not_eew (m : DisplayMode) : modeEqb (rotate m) EEW = false.
Proof. destruct m; reflexivity. Qed.

Lemma step_rotation (st : Store) :
  testMode st = false -> eewData st = None -> settled st ->
  step RotationTimer st = (setActiveMode (rotate (activeMode st)) st, []).
Proof.
  intros Ht He Hs. pose proof (settled_not_eew st Ht He Hs) as Hm.
  unfold step. cbn [handle]. unfold armed, modeEffect. rewrite Ht, He.
  cbn [snd captured]. unfold rotationTick. rewrite Hm. cbn [negb].
  rewrite settle_of_settled; [reflexivity|].
  apply settled_setActiveMode; try assumption. apply rotate_not_eew.
Qed.

Lemma step_click (m : DisplayMode) (st : Store) :
  testMode st = false -> eewData st = None -> settled st ->
  modeEqb m EEW = false ->
  step (match m with TSUNAMI => ClickTsunami | _ => ClickSeismic end) st
  = (setActiveMode (match m with TSUNAMI => TSUNAMI | _ => EARTHQUAKE end) st, []).
Proof.
  intros Ht He Hs Hm. unfold step.
  destruct m; [| |discriminate]; cbn [handle];
    unfold clickTab, tabsDisabled, isEEWActive; rewrite He;
    (rewrite settle_of_settled; [reflexivity|]);
    now apply settled_setActiveMode.
Qed.

Lemma run_rotation (n : nat) (st : Store) :
  testMode st = false -> eewData st = None -> settled st ->
  run (repeat RotationTimer n) st
  = (setActiveMode (Nat.iter n rotate (activeMode st)) st, []).
Proof.
  revert st. induction n as [|n IH]; intros st Ht He Hs.
  - cbn. destruct st; reflexivity.
  - cbn [repeat run]. rewrite (step_rotation st Ht He Hs).
    rewrite IH; try assumption.
    + cbn [activeMode setActiveMode app]. f_equal.
      rewrite <- Nat.iter_succ_r. destruct st; reflexivity.
    + apply settled_setActiveMode; try assumption. apply rotate_not_eew.
Qed.

(** C6: with no early warning, outside test mode and the effects settled,
    an interval of 10000 ms is armed; each time it fires the display goes
    from EARTHQUAKE to TSUNAMI or back, so [n] firings in a row alternate
    [n] times; a click on a tab selects that tab's mode, and the rotation
    goes on from there. *)
Theorem rotation_alternates (st : Store) :
  testMode st = false -> eewData st = None -> runEffects st = (st, []) ->
  armed st = Some {| period := 10000; captured := activeMode st |}
  /\ (activeMode st = EARTHQUAKE \/ activeMode st = TSUNAMI)
  /\ rotate EARTHQUAKE = TSUNAMI /\ rotate TSUNAMI = EARTHQUAKE
  /\ (forall n : nat,
        activeMode (fst (run (repeat RotationTimer n) st))
        = Nat.iter n rotate (activeMode st))
  /\ activeMode (fst (step ClickSeismic st)) = EARTHQUAKE
  /\ activeMode (fst (step ClickTsunami st)) = TSUNAMI
  /\ activeMode (fst (run [ClickTsunami; RotationTimer] st)) = EARTHQUAKE
  /\ activeMode (fst (run [ClickSeismic; RotationTimer] st)) = TSUNAMI.
Proof.
  intros Ht He Hs. change (settled st) in Hs.
  pose proof (settled_not_eew st Ht He Hs) as Hm.
  split; [|split; [|split; [|split; [|split; [|split; [|split; [|split]]]]]]].
  - unfold armed, modeEffect. rewrite Ht, He. reflexivity.
  - destruct (activeMode st); [now left | now right | discriminate].
  - reflexivity.
  - reflexivity.
  - intros n. now rewrite run_rotation.
  - now rewrite (step_click EARTHQUAKE st).
  - now rewrite (step_click TSUNAMI st).
  - cbn [run]. rewrite (step_click TSUNAMI st) by easy.
    rewrite step_rotation; [reflexivity|exact Ht|exact He|].
    now apply settled_setActiveMode.
  - cbn [run]. rewrite (step_click EARTHQUAKE st) by easy.
    rewrite step_rotation; [reflexivity|exact Ht|exact He|].
    now apply settled_setActiveMode.
Qed.

(** C10: a record left by the early-warning block of a poll is either the
    one that was there or has [isCancelled = false]; polling keeps every
    stored record not cancelled, and in no state the widget reaches is the
    stored record cancelled or the CANCELLED badge shown. *)
Theorem polled_eew_not_cancelled :
  (forall (now : Z) (res : bool * Body EewItem) (st : Store) (r : EEWData),
     eewData (fst (processEEW now res st)) = Some r ->
     eewData st = Some r \/ e_isCancelled r = false)
  /\ (forall (rq : Response QuakeItem) (rt : Response TsunamiItem)
        (re : Response EewItem) (now : Z) (r : EEWData),
        eewData (fetchData rq rt re now initialStore) = Some r ->
        e_isCancelled r = false)
  /\ (forall (evs : list Event) (r : EEWData),
        eewData (fst (run evs initialStore)) = Some r ->
        e_isCancelled r = false)
  /\ (forall evs : list Event,
        showsCancelled (fst (run evs initialStore)) = false).
Proof.
  assert (Hrun : forall evs r, eewData (fst (run evs initialStore)) = Some r ->
                               e_isCancelled r = false).
  { intros evs r Hr. pose proof (reachable_eewLive evs) as Hl.
    unfold eewLive in Hl. now rewrite Hr in Hl. }
  split; [|split; [|split]].
  - intros now res st r Hr.
    destruct (processEEW_cases now res st) as (v & Hv & Hc).
    rewrite Hv in Hr. cbn in Hr. subst v.
    destruct Hc as [H|[H|(r' & H & Hr')]].
    + now left.
    + discriminate.
    + injection H as ->. now right.
  - intros rq rt re now r Hr.
    pose proof (fetchData_eewLive rq rt re now initialStore I) as Hl.
    unfold eewLive in Hl. now rewrite Hr in Hl.
  - exact Hrun.
  - intros evs. unfold showsCancelled.
    destruct (eewData (fst (run evs initialStore))) as [r|] eqn:Hr;
      [|reflexivity].
    rewrite (Hrun evs r Hr). apply andb_false_r.
Qed.

(** ** Tsunami grades *)

Lemma existsb_gradeIs_perm (g : jsstring) (l l' : list TsunamiArea) :
  Permutation l l' -> existsb (gradeIs g) l = existsb (gradeIs g) l'.
Proof.
  intros Hp. apply eq_true_iff_eq. rewrite !existsb_exists.
  split; intros (a & Hin & Ha); exists a; split; try assumption.
  - now apply (Permutation_in a Hp).
  - now apply (Permutation_in a (Permutation_sym Hp)).
Qed.

Lemma gradeRank_maxGradeOf_cons (a : TsunamiArea) (r : list TsunamiArea) :
  gradeRank (maxGradeOf (a :: r))
  = Nat.max (gradeRank (a_grade a)) (gradeRank (maxGradeOf r)).
Proof.
  unfold maxGradeOf. cbn [existsb]. unfold gradeIs at 1 3 5. unfold gradeRank at 2.
  destruct (eqb (a_grade a) (utf16 "MajorWarning"));
  destruct (eqb (a_grade a) (utf16 "Warning"));
  destruct (eqb (a_grade a) (utf16 "Watch"));
  destruct (existsb (gradeIs (utf16 "MajorWarning")) r);
  destruct (existsb (gradeIs (utf16 "Warning")) r);
  destruct (existsb (gradeIs (utf16 "Watch")) r);
  reflexivity.
Qed.

Lemma gradeRank_maxGradeOf (areas : list TsunamiArea) :
  gradeRank (maxGradeOf areas)
  = list_max (map (fun a => gradeRank (a_grade a)) areas).
Proof.
  induction areas as [|a r IH]; [reflexivity|].
  rewrite gradeRank_maxGradeOf_cons, IH. reflexivity.
Qed.

(** X1: [maxGradeOf] is the highest grade among the areas in the order
    MajorWarning > Warning > Watch > anything else, "Unknown" for no areas,
    and does not depend on the order of the areas. *)
Theorem maxGradeOf_highest :
  maxGradeOf [] = utf16 "Unknown"
  /\ (forall areas : list TsunamiArea,
        gradeRank (maxGradeOf areas)
        = list_max (map (fun a => gradeRank (a_grade a)) areas))
  /\ (forall areas areas' : list TsunamiArea,
        Permutation areas areas' -> maxGradeOf areas = maxGradeOf areas').
Proof.
  split; [reflexivity|]. split.
  - exact gradeRank_maxGradeOf.
  - intros areas areas' Hp. unfold maxGradeOf.
    now rewrite !(existsb_gradeIs_perm _ areas areas' Hp).
Qed.

Lemma gradeRank_label (g : jsstring) :
  gradeRank g = 0 <-> getTsunamiGradeLabel g = utf16 "INFO".
Proof.
  unfold gradeRank, getTsunamiGradeLabel.
  destruct (eqb g (utf16 "MajorWarning"));
  destruct (eqb g (utf16 "Warning"));
  destruct (eqb g (utf16 "Watch"));
  split; intros H; try reflexivity; try discriminate H;
  vm_compute in H; discriminate H.
Qed.

Lemma list_max_zero (l : list nat) :
  list_max l = 0 <-> forall n, In n l -> n = 0.
Proof.
  induction l as [|x r IH]; cbn [list_max fold_right].
  - split; [intros _ n [] | reflexivity].
  - change (fold_right Nat.max 0 r) with (list_max r). split.
    + intros H n [<-|Hin]; [lia|]. apply IH; [lia | exact Hin].
    + intros H. rewrite (H x (or_introl eq_refl)).
      apply IH. intros n Hin. apply H. now right.
Qed.

Lemma display_strings_distinct :
  pairwiseDistinct
    (utf16 "text-purple-500 drop-shadow-[0_0_8px_rgba(168,85,247,0.8)]")
    (utf16 "text-red-500 drop-shadow-[0_0_8px_rgba(239,68,68,0.8)]")
    (utf16 "text-yellow-400") (utf16 "text-cyan-400")
  /\ pairwiseDistinct (utf16 "MAJOR WARNING") (utf16 "WARNING")
       (utf16 "ADVISORY") (utf16 "INFO").
Proof.
  split; repeat split; intros H; vm_compute in H; discriminate H.
Qed.

(** X2: the label and the colour of a grade draw the same distinctions, and
    the label shown for the highest grade of a list of areas is "INFO"
    exactly when no area carries MajorWarning, Warning or Watch. *)
Theorem grade_label_and_colour_agree :
  (forall g1 g2 : jsstring,
     getTsunamiColor g1 = getTsunamiColor g2
     <-> getTsunamiGradeLabel g1 = getTsunamiGradeLabel g2)
  /\ (forall areas : list TsunamiArea,
        getTsunamiGradeLabel (maxGradeOf areas) = utf16 "INFO"
        <-> forall a, In a areas ->
              getTsunamiGradeLabel (a_grade a) = utf16 "INFO").
Proof.
  split.
  - intros g1 g2. unfold getTsunamiColor, getTsunamiGradeLabel.
    destruct display_strings_distinct as [Hc Hl].
    repeat match goal with
    | |- context [utf16 ?lit] =>
      let x := fresh "x" in
      set (x := utf16 lit) in *; clearbody x
    end.
    destruct (eqb g1 _); [|destruct (eqb g1 _); [|destruct (eqb g1 _)]];
    (destruct (eqb g2 _); [|destruct (eqb g2 _); [|destruct (eqb g2 _)]]);
    unfold pairwiseDistinct in *;
    split; intros H; try reflexivity; exfalso; intuition congruence.
  - intros areas. rewrite <- gradeRank_label.
    rewrite (gradeRank_maxGradeOf areas), list_max_zero.
    split.
    + intros H a Hin. apply gradeRank_label. apply H.
      apply in_map_iff. now exists a.
    + intros H n Hin. apply in_map_iff in Hin.
      destruct Hin as (a & <- & Hin). apply gradeRank_label. now apply H.
Qed.

(** ** Intensity labels *)

(** X3: the codes with a label of their own (-1, 10, 20, 30, 40, 45, 50, 55,
    60, 70) have pairwise different labels, none of them "0" or "?". *)
Theorem getIntensityLabel_injective (a b : Z) :
  In a labelledCodes -> In b labelledCodes ->
  (getIntensityLabel a = getIntensityLabel b -> a = b)
  /\ getIntensityLabel a <> utf16 "0"
  /\ getIntensityLabel a <> utf16 "?".
Proof.
  unfold labelledCodes, listedCodes. cbn [In]. intros Ha Hb.
  repeat (destruct Ha as [<-|Ha]; [|]); try contradiction;
    (split; [|split; vm_compute; discriminate]);
    repeat (destruct Hb as [<-|Hb]; [|]); try contradiction;
    intros H; try reflexivity; vm_compute in H; discriminate H.
Qed.

(** ** The translation tables *)

Lemma tables_translate_keys :
  forallb (fun kv => eqb (translateText upperNonAscii (fst kv)) (trim (snd kv)))
          (PREF_MAP ++ SUFFIX_MAP) = true.
Proof. vm_compute. reflexivity. Qed.

(** X4: every key of the two tables, translated on its own, gives its table
    value (without the leading blank of a suffix value): no key is shadowed
    by a key tried before it. *)
Theorem translateText_key (k v : jsstring) :
  In (k, v) (PREF_MAP ++ SUFFIX_MAP) ->
  translateText upperNonAscii k = trim v.
Proof.
  intros Hin. pose proof tables_translate_keys as H.
  rewrite forallb_forall in H. specialize (H (k, v) Hin).
  now apply eqb_eq in H.
Qed.

Lemma in_join (x : N) (v : jsstring) (parts : list jsstring) :
  In x (join v parts) -> In x v \/ exists p, In p parts /\ In x p.
Proof.
  induction parts as [|p rest IH]; [intros []|].
  destruct rest as [|q rest'].
  - cbn [join]. intros H. right. exists p. split; [now left | exact H].
  - change (join v (p :: q :: rest')) with (p ++ v ++ join v (q :: rest')).
    rewrite !in_app_iff. intros [H|[H|H]].
    + right. exists p. split; [now left | exact H].
    + now left.
    + destruct (IH H) as [Hv|(p' & Hp & Hx)]; [now left|].
      right. exists p'. split; [now right | exact Hx].
Qed.

Lemma in_splitFrom (x : N) (key : jsstring) (skip : nat) (cur s p : jsstring) :
  In p (splitFrom key skip cur s) -> In x p -> In x cur \/ In x s.
Proof.
  revert skip cur. induction s as [|c r IH]; intros skip cur Hp Hx.
  - cbn in Hp. destruct Hp as [<-|[]]. left. now apply in_rev.
  - cbn [splitFrom] in Hp. destruct skip as [|k].
    + destruct (startsWith key (c :: r)).
      * destruct Hp as [<-|Hp]; [left; now apply in_rev|].
        destruct (IH _ _ Hp Hx) as [[]|H]. right. now right.
      * destruct (IH _ _ Hp Hx) as [[<-|H]|H].
        -- right. now left.
        -- now left.
        -- right. now right.
    + destruct (IH _ _ Hp Hx) as [H|H]; [now left | right; now right].
Qed.

Lemma in_replace (x : N) (key v s : jsstring) :
  In x (join v (split key s)) -> In x v \/ In x s.
Proof.
  intros H. destruct (in_join x v _ H) as [Hv|(p & Hp & Hx)]; [now left|].
  destruct (in_splitFrom x key 0 [] s p Hp Hx) as [[]|Hs]. now right.
Qed.

Lemma splitFrom_single (c : N) (cur s p : jsstring) :
  ~ In c cur -> In p (splitFrom [c] 0 cur s) -> ~ In c p.
Proof.
  revert cur. induction s as [|x r IH]; intros cur Hc Hp.
  - cbn in Hp. destruct Hp as [<-|[]]. intros H. apply Hc. now apply in_rev.
  - cbn [splitFrom startsWith List.length Nat.sub] in Hp.
    destruct (N.eqb_spec c x) as [->|Hne]; cbn [andb] in Hp.
    + destruct Hp as [<-|Hp].
      * intros H. apply Hc. now apply in_rev.
      * apply (IH [] (fun H => H) Hp).
    + apply (IH (x :: cur)); [|exact Hp].
      intros [H|H]; [now apply Hne | now apply Hc].
Qed.

Lemma replace_single (c : N) (v s : jsstring) :
  ~ In c v -> ~ In c (join v (split [c] s)).
Proof.
  intros Hv H. destruct (in_join c v _ H) as [Hin|(p & Hp & Hx)].
  - now apply Hv.
  - now apply (splitFrom_single c [] s p (fun H => H) Hp).
Qed.

Lemma replaceAll_keeps_out (c : N) (map : dict) (s : jsstring) :
  (forall kv, In kv map -> ~ In c (snd kv)) ->
  ~ In c s -> ~ In c (replaceAll map s).
Proof.
  unfold replaceAll. revert s.
  induction map as [|[k v] rest IH]; intros s Hv Hs; [exact Hs|].
  cbn [fold_left fst snd]. apply IH.
  - intros kv Hin. apply Hv. now right.
  - intros H. destruct (in_replace c k v s H) as [H'|H'].
    + now apply (Hv (k, v) (or_introl eq_refl)).
    + now apply Hs.
Qed.

Lemma replaceAll_removes (c : N) (map : dict) (s : jsstring) :
  (forall kv, In kv map -> ~ In c (snd kv)) ->
  In c (singleKeys map) -> ~ In c (replaceAll map s).
Proof.
  unfold replaceAll. revert s.
  induction map as [|[k v] rest IH]; intros s Hv Hc; [destruct Hc|].
  cbn [fold_left fst snd].
  unfold singleKeys in Hc. cbn [flat_map fst] in Hc.
  apply in_app_or in Hc.
  assert (Hrest : forall kv, In kv rest -> ~ In c (snd kv)).
  { intros kv Hin. apply Hv. now right. }
  destruct Hc as [Hc|Hc].
  - destruct k as [|c0 [|c1 k']]; [destruct Hc| |destruct Hc].
    destruct Hc as [->|[]].
    apply (replaceAll_keeps_out c rest _ Hrest).
    apply replace_single. apply (Hv ([c], v) (or_introl eq_refl)).
  - now apply IH.
Qed.

Lemma in_collapseFrom (c : N) (b : bool) (s : jsstring) :
  In c (collapseFrom b s) -> c = 32%N \/ In c s.
Proof.
  revert b. induction s as [|x r IH]; intros b; [intros []|].
  cbn [collapseFrom]. destruct (isSpace x).
  - destruct b.
    + intros H. destruct (IH _ H); [now left | right; now right].
    + intros [<-|H]; [now left|].
      destruct (IH _ H); [now left | right; now right].
  - intros [<-|H]; [right; now left|].
    destruct (IH _ H); [now left | right; now right].
Qed.

Lemma in_trimStart (c : N) (s : jsstring) : In c (trimStart s) -> In c s.
Proof.
  induction s as [|x r IH]; [intros []|].
  cbn [trimStart]. destruct (isSpace x); [|exact (fun H => H)].
  intros H. right. now apply IH.
Qed.

Lemma in_trimEnd (c : N) (s : jsstring) : In c (trimEnd s) -> In c s.
Proof.
  induction s as [|x r IH]; [intros []|].
  cbn [trimEnd]. destruct (trimEnd r) as [|y r'].
  - destruct (isSpace x); [intros [] | intros [<-|[]]; now left].
  - intros [<-|H]; [now left | right; now apply IH].
Qed.

Lemma in_upperFrom (c : N) (run s : jsstring) :
  isAscii c = false -> keepsOut upperNonAscii c ->
  In c (upperFrom upperNonAscii run s) -> In c run \/ In c s.
Proof.
  intros Hc Hup. revert run.
  assert (Hflush : forall run, In c (flushRun upperNonAscii run) -> In c run).
  { intros [|x run]; [intros []|]. cbn [flushRun]. intros H.
    apply Hup in H. now apply in_rev. }
  induction s as [|x r IH]; intros run.
  - cbn [upperFrom]. intros H. left. now apply Hflush.
  - cbn [upperFrom]. destruct (isAscii x) eqn:Hx.
    + rewrite in_app_iff. intros [H|[H|H]].
      * left. now apply Hflush.
      * pose proof (isAscii_asciiUpper x Hx) as Hu. congruence.
      * destruct (IH [] H) as [[]|H']. right. now right.
    + intros H. destruct (IH _ H) as [[<-|H']|H'].
      * right. now left.
      * now left.
      * right. now right.
Qed.

Lemma suffix_singles_foreign :
  asciiValues SUFFIX_MAP = true
  /\ forallb (fun c => negb (isAscii c) && negb (c =? 32)%N)
             (singleKeys SUFFIX_MAP) = true.
Proof. split; vm_compute; reflexivity. Qed.

(** X5: a code unit that is by itself a key of the suffix table ("県", "府",
    "都", "道", "湾", "灘", "沖", "島", "北", "南", "東", "西") never occurs
    in a translation, whatever the input, provided the engine's upper-casing
    does not make it up. *)
Theorem translateText_drops_single_keys (c : N) (s : jsstring) :
  In c (singleKeys SUFFIX_MAP) -> keepsOut upperNonAscii c ->
  ~ In c (translateText upperNonAscii s).
Proof.
  intros Hc Hup. destruct suffix_singles_foreign as [Hv Hs].
  rewrite forallb_forall in Hs. specialize (Hs c Hc).
  apply andb_prop in Hs. destruct Hs as [Ha H32].
  apply negb_true_iff in Ha. apply negb_true_iff in H32.
  apply N.eqb_neq in H32.
  unfold translateText. destruct (negb (truthy s)); [intros []|].
  intros H. apply (in_upperFrom c [] _ Ha Hup) in H.
  destruct H as [[]|H].
  apply in_trimEnd, in_trimStart, in_collapseFrom in H.
  destruct H as [H|H]; [contradiction|].
  revert H. apply replaceAll_removes; [|exact Hc].
  intros kv Hin Hcv. unfold asciiValues in Hv.
  rewrite forallb_forall in Hv. specialize (Hv kv Hin).
  rewrite forallb_forall in Hv. specialize (Hv c Hcv). congruence.
Qed.

(** ** White space in translations *)

Lemma spaceFree_tidy_app (b : bool) (l y : jsstring) :
  spaceFree l = true ->
  tidy b (l ++ y) = tidy (match l with [] => b | _ :: _ => false end) y.
Proof.
  revert b. induction l as [|c r IH]; intros b H; [reflexivity|].
  cbn [spaceFree forallb] in H. apply andb_prop in H. destruct H as [Hc Hr].
  apply negb_true_iff in Hc. cbn [app tidy]. rewrite Hc.
  rewrite (IH false Hr). now destruct r.
Qed.

Lemma endsOk_app (ok : bool) (x y : jsstring) :
  endsOk ok (x ++ y) = endsOk (endsOk ok x) y.
Proof.
  revert ok. induction x as [|c r IH]; intros ok; [reflexivity|].
  cbn [app endsOk]. apply IH.
Qed.

Lemma spaceFree_endsOk (ok : bool) (l : jsstring) :
  spaceFree l = true -> l <> [] -> endsOk ok l = true.
Proof.
  revert ok. induction l as [|c r IH]; intros ok H Hne; [contradiction|].
  cbn [spaceFree forallb] in H. apply andb_prop in H. destruct H as [Hc Hr].
  cbn [endsOk]. destruct r as [|d r']; [exact Hc|].
  apply IH; [exact Hr | discriminate].
Qed.

Lemma spaceFree_rev (l : jsstring) : spaceFree (rev l) = spaceFree l.
Proof.
  unfold spaceFree. apply eq_true_iff_eq. rewrite !forallb_forall.
  split; intros H x Hx; apply H.
  - apply (proj1 (in_rev l x)). exact Hx.
  - apply (proj2 (in_rev l x)). exact Hx.
Qed.

Lemma trimEnd_endsOk (s : jsstring) : endsOk true (trimEnd s) = true.
Proof.
  induction s as [|c r IH]; [reflexivity|].
  cbn [trimEnd]. destruct (trimEnd r) as [|y r'].
  - destruct (isSpace c) eqn:Hc; [reflexivity|]. cbn [endsOk]. now rewrite Hc.
  - exact IH.
Qed.

Lemma trimEnd_fix (ok : bool) (s : jsstring) :
  endsOk ok s = true -> s <> [] -> trimEnd s = s.
Proof.
  revert ok. induction s as [|c r IH]; intros ok H Hne; [contradiction|].
  cbn [endsOk] in H. cbn [trimEnd]. destruct r as [|d r'].
  - cbn in H |- *. apply negb_true_iff in H. now rewrite H.
  - rewrite (IH _ H) by discriminate. reflexivity.
Qed.

Lemma tidy_foreign_unit (b : bool) (c : N) (r : jsstring) :
  isAscii c = false -> tidy b (c :: r) = true ->
  isSpace c = false /\ tidy false r = true.
Proof.
  intros Ha H. cbn [tidy] in H. destruct (isSpace c); [|now split].
  apply andb_prop in H. destruct H as [H _].
  apply andb_prop in H. destruct H as [H _].
  apply N.eqb_eq in H. subst c. discriminate Ha.
Qed.

Section Words.

Hypothesis Hwords : keepsWords upperNonAscii.

Lemma flushRun_words (run : jsstring) :
  spaceFree run = true ->
  spaceFree (flushRun upperNonAscii run) = true
  /\ (run <> [] -> flushRun upperNonAscii run <> []).
Proof.
  intros H. destruct run as [|c r]; [split; [reflexivity | contradiction]|].
  cbn [flushRun].
  assert (Hne : rev (c :: r) <> []).
  { intros E. apply (f_equal (@List.length N)) in E.
    rewrite length_rev in E. discriminate E. }
  destruct (Hwords (rev (c :: r)) Hne) as [H1 H2].
  { now rewrite spaceFree_rev. }
  split; [exact H2 | intros _; exact H1].
Qed.

Lemma upperFrom_tidy (b : bool) (run s : jsstring) :
  spaceFree run = true ->
  tidy (match run with [] => b | _ :: _ => false end) s = true ->
  tidy b (upperFrom upperNonAscii run s) = true.
Proof.
  revert b run. induction s as [|c r IH]; intros b run Hrun Hs.
  - cbn [upperFrom]. destruct (flushRun_words run Hrun) as [Hf _].
    rewrite <- (app_nil_r (flushRun upperNonAscii run)).
    rewrite (spaceFree_tidy_app b _ [] Hf). reflexivity.
  - cbn [upperFrom]. destruct (isAscii c) eqn:Ha.
    + destruct (flushRun_words run Hrun) as [Hf Hne].
      rewrite (spaceFree_tidy_app b _ _ Hf).
      assert (Hb : tidy (match flushRun upperNonAscii run with
                         | [] => b | _ :: _ => false end)
                     (c :: r) = true).
      { destruct run as [|x run']; [exact Hs|].
        destruct (flushRun upperNonAscii (x :: run')) eqn:E; [|exact Hs].
        exfalso. apply Hne; [discriminate | reflexivity]. }
      cbn [tidy] in Hb |- *. rewrite isSpace_asciiUpper.
      destruct (isSpace c).
      * apply andb_prop in Hb. destruct Hb as [Hb Hr].
        apply andb_prop in Hb. destruct Hb as [Hc Hb].
        apply N.eqb_eq in Hc. subst c. rewrite asciiUpper_space.
        rewrite Hb. cbn. now apply (IH true []).
      * now apply (IH false []).
    + destruct (tidy_foreign_unit _ c r Ha Hs) as [Hc Hr].
      apply IH; [|exact Hr].
      cbn [spaceFree forallb]. now rewrite Hc.
Qed.

Lemma upperFrom_endsOk (ok b : bool) (run s : jsstring) :
  spaceFree run = true ->
  tidy b s = true ->
  endsOk (match run with [] => ok | _ :: _ => true end) s = true ->
  endsOk ok (upperFrom upperNonAscii run s) = true.
Proof.
  revert ok b run. induction s as [|c r IH]; intros ok b run Hrun Ht Hs.
  - cbn [upperFrom]. destruct run as [|x run']; [exact Hs|].
    destruct (flushRun_words (x :: run') Hrun) as [Hf Hne].
    apply spaceFree_endsOk; [exact Hf | apply Hne; discriminate].
  - cbn [upperFrom]. destruct (isAscii c) eqn:Ha.
    + rewrite endsOk_app. cbn [endsOk]. rewrite isSpace_asciiUpper.
      assert (Hr : exists b', tidy b' r = true).
      { cbn [tidy] in Ht. destruct (isSpace c).
        - apply andb_prop in Ht. destruct Ht as [_ Ht]. now exists true.
        - now exists false. }
      destruct Hr as [b' Hr].
      apply (IH _ b' []); [reflexivity | exact Hr|].
      now destruct run.
    + destruct (tidy_foreign_unit _ c r Ha Ht) as [Hc Hr].
      apply (IH _ false); [cbn [spaceFree forallb]; now rewrite Hc | exact Hr|].
      cbn [endsOk] in Hs. rewrite Hc in Hs. cbn in Hs. now destruct run.
Qed.

Lemma upperFrom_startsClean (b : bool) (run s : jsstring) :
  spaceFree run = true ->
  tidy b s = true ->
  (run = [] -> startsClean s = true) ->
  startsClean (upperFrom upperNonAscii run s) = true.
Proof.
  assert (Hflush : forall rn y, rn <> [] -> spaceFree rn = true ->
            startsClean (flushRun upperNonAscii rn ++ y) = true).
  { intros rn y Hne Hrn. destruct (flushRun_words rn Hrn) as [Hf Hn].
    specialize (Hn Hne).
    destruct (flushRun upperNonAscii rn) as [|x f]; [contradiction|].
    cbn [spaceFree forallb] in Hf. apply andb_prop in Hf.
    cbn. apply Hf. }
  revert b run. induction s as [|c r IH]; intros b run Hrun Ht Hs.
  - cbn [upperFrom]. destruct run as [|x run']; [reflexivity|].
    rewrite <- (app_nil_r (flushRun _ _)). apply Hflush; [discriminate|exact Hrun].
  - cbn [upperFrom]. destruct (isAscii c) eqn:Ha.
    + destruct run as [|x run'].
      * cbn. rewrite isSpace_asciiUpper. now apply Hs.
      * apply Hflush; [discriminate | exact Hrun].
    + destruct (tidy_foreign_unit _ c r Ha Ht) as [Hc Hr].
      apply (IH false); [cbn [spaceFree forallb]; now rewrite Hc | exact Hr|].
      discriminate.
Qed.

(** X6: a translation is in white-space normal form: cleaning it up again
    (collapsing runs of white space and trimming) changes nothing, provided
    the engine's upper-casing keeps words words. *)
Theorem translateText_normalised (s : jsstring) :
  trim (collapseSpaces (translateText upperNonAscii s))
  = translateText upperNonAscii s.
Proof.
  unfold translateText. destruct (negb (truthy s)); [reflexivity|].
  set (u := trim (collapseSpaces (replaceAll SUFFIX_MAP (replaceAll PREF_MAP s)))).
  assert (Ht : tidy false u = true).
  { apply tidy_trimEnd, (tidy_trimStart false), tidy_collapseFrom. }
  assert (Hc : startsClean u = true).
  { apply startsClean_trimEnd, startsClean_trimStart. }
  assert (He : endsOk true u = true) by apply trimEnd_endsOk.
  unfold toUpperCase.
  pose proof (upperFrom_tidy false [] u eq_refl Ht) as Ht'.
  pose proof (upperFrom_startsClean false [] u eq_refl Ht (fun _ => Hc)) as Hc'.
  pose proof (upperFrom_endsOk true false [] u eq_refl Ht He) as He'.
  unfold trim, collapseSpaces.
  rewrite (collapseFrom_tidy false _ Ht'), (trimStart_clean _ Hc').
  destruct (upperFrom upperNonAscii [] u) as [|x t] eqn:E; [reflexivity|].
  apply (trimEnd_fix true); [exact He' | discriminate].
Qed.

End Words.

(** ** More on polling *)

Lemma fetchData_controls (rq : Response QuakeItem) (rt : Response TsunamiItem)
  (re : Response EewItem) (now : Z) (st : Store) :
  testMode (fetchData rq rt re now st) = testMode st
  /\ activeMode (fetchData rq rt re now st) = activeMode st
  /\ lastAlertTime (fetchData rq rt re now st) = lastAlertTime st.
Proof.
  destruct (fetchData_cases rq rt re now st) as (l & vq & vt & ve & -> & _).
  repeat split.
Qed.

(** X7: a poll writes the three records and the loading flag only: test
    mode, display mode and last alerted time are left alone; outside test
    mode the loading flag is off afterwards whatever happened (rejected
    fetch, exception), and in test mode the poll does nothing at all. *)
Theorem poll_frame (rq : Response QuakeItem) (rt : Response TsunamiItem)
  (re : Response EewItem) (now : Z) (st : Store) :
  testMode (fetchData rq rt re now st) = testMode st
  /\ activeMode (fetchData rq rt re now st) = activeMode st
  /\ lastAlertTime (fetchData rq rt re now st) = lastAlertTime st
  /\ (testMode st = false -> loading (fetchData rq rt re now st) = false)
  /\ (testMode st = true -> fetchData rq rt re now st = st).
Proof.
  destruct (fetchData_controls rq rt re now st) as (H1 & H2 & H3).
  repeat split; try assumption.
  - intros Ht. unfold fetchData. rewrite Ht.
    destruct (fetchBody rq rt re now (setLoading true st)). reflexivity.
  - intros Ht. unfold fetchData. now rewrite Ht.
Qed.

Lemma fetchData_rejected (rq : Response QuakeItem) (rt : Response TsunamiItem)
  (re : Response EewItem) (now : Z) (st : Store) :
  isRejected rq || isRejected rt || isRejected re = true ->
  testMode st = false ->
  fetchData rq rt re now st = setLoading false st.
Proof.
  intros Hr Ht. unfold fetchData. rewrite Ht.
  unfold fetchBody, awaitAll, bind, throw.
  destruct rq; [destruct st; reflexivity|].
  destruct rt; [destruct st; reflexivity|].
  destruct re; [destruct st; reflexivity | discriminate Hr].
Qed.

Lemma processQuake_throws (ok : bool) (body : Body QuakeItem) (st : Store) :
  quakeThrows (Http ok body) = true -> processQuake (ok, body) st = (st, None).
Proof.
  unfold processQuake, latest, bind, deref, ret, throw, set.
  destruct ok; [|discriminate].
  destruct body as [| | |[|[item|] rest]]; try discriminate; try reflexivity.
  cbn. destruct (qi_earthquake item) as [q|]; [|discriminate].
  destruct (qe_hypocenter q); [discriminate | reflexivity].
Qed.

Lemma fetchData_quake_first (okq okt oke : bool) (bq : Body QuakeItem)
  (bt : Body TsunamiItem) (be : Body EewItem) (now : Z) (st : Store) :
  testMode st = false ->
  quakeData (fetchData (Http okq bq) (Http okt bt) (Http oke be) now st)
  = quakeData (fst (processQuake (okq, bq) st)).
Proof.
  intros Ht. unfold fetchData. rewrite Ht.
  unfold fetchBody, awaitAll, bind, ret.
  destruct (processQuake_cases (okq, bq) (setLoading true st)) as (vq & Hq & _).
  destruct (processQuake_cases (okq, bq) st) as (vq' & Hq' & _).
  assert (Hsame : vq = vq').
  { clear - Hq Hq'. unfold processQuake, latest, bind, deref, ret, throw, set in *.
    destruct okq; [|cbn in *].
    - destruct bq as [| | |[|[item|] rest]]; cbn in *;
        try (apply (f_equal quakeData) in Hq;
             apply (f_equal quakeData) in Hq'; cbn in *; congruence).
      destruct (qi_earthquake item) as [q|]; cbn in *;
        [destruct (qe_hypocenter q); cbn in *|];
        apply (f_equal quakeData) in Hq;
        apply (f_equal quakeData) in Hq'; cbn in *; congruence.
    - apply (f_equal quakeData) in Hq.
      apply (f_equal quakeData) in Hq'. cbn in *. congruence. }
  rewrite Hq'. subst vq'.
  destruct (processQuake (okq, bq) (setLoading true st)) as [s1 r1].
  cbn [fst] in Hq. subst s1. destruct r1 as [[]|]; [|reflexivity].
  destruct (processTsunami_cases (okt, bt)
              (setQuakeData vq (setLoading true st))) as (vt & Hts).
  destruct (processTsunami (okt, bt) _) as [s2 r2]. cbn [fst] in Hts. subst s2.
  destruct r2 as [[]|]; [|reflexivity].
  destruct (processEEW_cases now (oke, be)
              (setTsunamiData vt (setQuakeData vq (setLoading true st))))
    as (ve & He & _).
  destruct (processEEW now (oke, be) _) as [s3 r3]. cbn [fst] in He. subst s3.
  reflexivity.
Qed.

(** X8: how a failure in one feed reaches the others.  A single rejected
    fetch leaves all three records as they were.  An earthquake body that is
    not JSON, or an earthquake item without its hypocenter, leaves all three
    as they were, whatever the tsunami and early-warning responses hold.  A
    tsunami body that is not JSON leaves the early warning as it was.  The
    earthquake record itself is updated from its own response alone. *)
Theorem poll_failure_propagation (rq : Response QuakeItem)
  (rt : Response TsunamiItem) (re : Response EewItem) (now : Z) (st : Store) :
  let st' := fetchData rq rt re now st in
  (isRejected rq || isRejected rt || isRejected re = true ->
     quakeData st' = quakeData st /\ tsunamiData st' = tsunamiData st
     /\ eewData st' = eewData st)
  /\ (quakeThrows rq = true ->
        quakeData st' = quakeData st /\ tsunamiData st' = tsunamiData st
        /\ eewData st' = eewData st)
  /\ (rt = Http true Invalid -> eewData st' = eewData st)
  /\ (forall okq bq, rq = Http okq bq -> testMode st = false ->
        isRejected rt || isRejected re = false ->
        quakeData st' = quakeData (fst (processQuake (okq, bq) st))).
Proof.
  intros st'. subst st'.
  destruct (testMode st) eqn:Ht.
  { unfold fetchData. rewrite Ht. repeat split; try reflexivity.
    intros; discriminate. }
  split; [|split; [|split]].
  - intros Hr. rewrite (fetchData_rejected rq rt re now st Hr Ht).
    repeat split.
  - intros Hq. destruct rq as [|okq bq]; [discriminate|].
    unfold fetchData. rewrite Ht. unfold fetchBody, awaitAll, bind, ret, throw.
    destruct rt; [repeat split|]. destruct re; [repeat split|].
    rewrite (processQuake_throws okq bq _ Hq). repeat split.
  - intros ->.
    unfold fetchData. rewrite Ht. unfold fetchBody, awaitAll, bind, ret, throw.
    destruct rq as [|okq bq]; [reflexivity|]. destruct re; [reflexivity|].
    destruct (processQuake_cases (okq, bq) (setLoading true st)) as (vq & Hq & _).
    destruct (processQuake (okq, bq) _) as [s1 r1]. cbn [fst] in Hq. subst s1.
    destruct r1 as [[]|]; reflexivity.
  - intros okq bq -> _ Hr.
    destruct rt as [|okt bt]; [discriminate|].
    destruct re as [|oke be]; [discriminate|].
    now apply fetchData_quake_first.
Qed.

Lemma process_first_only (okq okt oke : bool) (xq : option QuakeItem)
  (xt : option TsunamiItem) (xe : option EewItem)
  (rq rq' : list (option QuakeItem)) (rt rt' : list (option TsunamiItem))
  (re re' : list (option EewItem)) (now : Z) :
  processQuake (okq, Items (xq :: rq)) = processQuake (okq, Items (xq :: rq'))
  /\ processTsunami (okt, Items (xt :: rt))
     = processTsunami (okt, Items (xt :: rt'))
  /\ processEEW now (oke, Items (xe :: re))
     = processEEW now (oke, Items (xe :: re')).
Proof. destruct okq, okt, oke; repeat split. Qed.

(** X9: only the first item of each list is consulted: replacing everything
    after it, in any of the three responses, changes nothing. *)
Theorem poll_reads_first_item (rq : Response QuakeItem)
  (rt : Response TsunamiItem) (re : Response EewItem)
  (tq : list (option QuakeItem)) (tt : list (option TsunamiItem))
  (te : list (option EewItem)) (now : Z) (st : Store) :
  fetchData (retail tq rq) (retail tt rt) (retail te re) now st
  = fetchData rq rt re now st.
Proof.
  unfold fetchData. destruct (testMode st); [reflexivity|].
  assert (H : fetchBody (retail tq rq) (retail tt rt) (retail te re) now
              = fetchBody rq rt re now); [|now rewrite H].
  unfold fetchBody, awaitAll.
  destruct rq as [|okq [| | |[|xq lq]]], rt as [|okt [| | |[|xt lt]]],
           re as [|oke [| | |[|xe le]]]; try reflexivity;
    cbn [retail]; unfold bind, ret;
    repeat match goal with
    | |- context [processQuake (?ok, Items (?x :: tq))] =>
      rewrite (proj1 (process_first_only ok true true x None None
                        tq lq [] [] [] [] now))
    | |- context [processTsunami (?ok, Items (?x :: tt))] =>
      rewrite (proj1 (proj2 (process_first_only true ok true None x None
                               [] [] tt lt [] [] now)))
    | |- context [processEEW now (?ok, Items (?x :: te))] =>
      rewrite (proj2 (proj2 (process_first_only true true ok None None x
                               [] [] [] [] te le now)))
    end; reflexivity.
Qed.

(** ** More on the machine *)

Lemma handle_controls (ev : Event) (st : Store) :
  isPollEvent ev = true ->
  testMode (fst (handle ev st)) = testMode st
  /\ activeMode (fst (handle ev st)) = activeMode st
  /\ lastAlertTime (fst (handle ev st)) = lastAlertTime st.
Proof.
  intros Hev. pose proof (handle_poll_frame ev st) as Hf.
  destruct ev as [|res|res|res now| | | | |isoE isoQ]; try discriminate Hev.
  - destruct Hf as [l ->]. repeat split.
  - destruct Hf as [v ->]. repeat split.
  - destruct Hf as [v ->]. repeat split.
  - destruct Hf as (v & -> & _). repeat split.
  - destruct Hf as [l ->]. repeat split.
Qed.

Lemma handle_testMode (ev : Event) (st : Store) :
  isToggle ev = false -> testMode (fst (handle ev st)) = testMode st.
Proof.
  intros Hev.
  destruct ev as [|res|res|res now| | | | |isoE isoQ]; try discriminate Hev;
    try (apply handle_controls; reflexivity); cbn [handle fst].
  - destruct (clickTab_cases EARTHQUAKE st) as [->|[_ ->]]; reflexivity.
  - destruct (clickTab_cases TSUNAMI st) as [->|[_ ->]]; reflexivity.
  - destruct (armed st) as [i|]; cbn [fst]; [|reflexivity].
    unfold rotationTick. destruct (negb _); reflexivity.
Qed.

Lemma handle_silent (ev : Event) (st : Store) :
  isToggle ev = false -> snd (handle ev st) = [].
Proof.
  intros Hev.
  destruct ev as [|res|res|res now| | | | |isoE isoQ]; try discriminate Hev;
    cbn [handle snd]; try reflexivity.
  destruct (armed st); reflexivity.
Qed.

(** In test mode both effects return at once. *)
Lemma settle_test (st : Store) : testMode st = true -> settle st = (st, []).
Proof.
  intros Ht. rewrite settle_eq. unfold runEffects, alertEffect.
  rewrite Ht. unfold modeEffect. rewrite Ht. reflexivity.
Qed.

Lemma settle_mode (st : Store) :
  testMode st = false ->
  activeMode (fst (settle st))
  = match eewData st with
    | Some _ => EEW
    | None => if modeEqb (activeMode st) EEW then EARTHQUAKE else activeMode st
    end.
Proof.
  intros Ht. rewrite settle_eq, runEffects_fst.
  destruct (alertEffect_frame st) as [v ->].
  unfold modeEffect. cbn [testMode eewData activeMode setLastAlertTime].
  rewrite Ht. destruct (eewData st); [reflexivity|].
  destruct (modeEqb (activeMode st) EEW); reflexivity.
Qed.

(** X10: in test mode the effects are off.  An event other than the test
    button plays no sound, leaves the widget in test mode and leaves the last
    alerted time alone, and the effects do not react to what it wrote; a call
    of [fetchData] that starts does nothing, the rotation timer does nothing,
    and with a record present clicks do nothing.  The blocks of calls begun
    before the test still write their records. *)
Theorem test_mode_silent (st : Store) (ev : Event) :
  testMode st = true -> isToggle ev = false ->
  step ev st = (fst (handle ev st), [])
  /\ testMode (fst (step ev st)) = true
  /\ step PollBegin st = (st, [])
  /\ step RotationTimer st = (st, [])
  /\ (isEEWActive st = true ->
      step ClickSeismic st = (st, []) /\ step ClickTsunami st = (st, []))
  /\ (forall (res : bool * Body EewItem) (now : Z),
        step (EewArrives res now) st = (fst (processEEW now res st), [])).
Proof.
  intros Ht Hev.
  assert (Hstep : forall e, isToggle e = false ->
                            step e st = (fst (handle e st), [])).
  { intros e He. unfold step.
    pose proof (handle_testMode e st He) as Hm.
    pose proof (handle_silent e st He) as Hs.
    destruct (handle e st) as [s1 p1]. cbn [fst snd] in *. subst p1.
    rewrite settle_test; [reflexivity | now rewrite Hm]. }
  split; [now apply Hstep|]. split.
  { rewrite (Hstep ev Hev). cbn [fst]. now rewrite handle_testMode. }
  split.
  { rewrite (Hstep PollBegin eq_refl). cbn [handle fst]. now rewrite Ht. }
  split.
  { rewrite (Hstep RotationTimer eq_refl). cbn [handle].
    unfold armed, modeEffect. rewrite Ht. reflexivity. }
  split.
  - intros He. split.
    + rewrite (Hstep ClickSeismic eq_refl). cbn [handle fst].
      now rewrite click_disabled.
    + rewrite (Hstep ClickTsunami eq_refl). cbn [handle fst].
      now rewrite click_disabled.
  - intros res now. now rewrite (Hstep (EewArrives res now) eq_refl).
Qed.


(** X12: in every state the widget reaches outside test mode, the display
    mode is EEW exactly when an early-warning record is present, and that is
    exactly when the early-warning view is rendered. *)
Theorem eew_mode_iff_record (evs : list Event) :
  let st := fst (run evs initialStore) in
  testMode st = false ->
  (activeMode st = EEW <-> isEEWActive st = true)
  /\ (view st = EewView <-> isEEWActive st = true).
Proof.
  cbn zeta. intros Ht.
  pose proof (run_settled evs initialStore initial_settled) as Hs.
  pose proof (reachable_forced evs Ht) as Hf.
  set (st := fst (run evs initialStore)) in *.
  assert (Hiff : activeMode st = EEW <-> isEEWActive st = true).
  { split; [|exact Hf]. intros Hm.
    unfold isEEWActive. destruct (eewData st) eqn:He; [reflexivity|].
    pose proof (settled_not_eew st Ht He Hs) as Hn.
    rewrite Hm in Hn. discriminate Hn. }
  split; [exact Hiff|].
  unfold view. split.
  - destruct (isEEWActive st); [reflexivity|].
    rewrite andb_false_r. destruct (_ && _); discriminate.
  - intros He. rewrite He, (proj2 Hiff He). reflexivity.
Qed.

(** ** More on the alert trigger *)

Lemma runEffects_new (st : Store) (t : jsstring) (b : bool) :
  testMode st = false -> candidate st = Some (t, b) -> truthy t = true ->
  lastAlertTime st <> Some t ->
  runEffects st
  = (fst (modeEffect (setLastAlertTime (Some t) st)), [b]).
Proof.
  intros Ht Hc Htr Hl. unfold runEffects.
  rewrite alertEffect_spec. unfold alertSpec. rewrite Ht, Hc, Htr.
  destruct (differs t (lastAlertTime st)) eqn:Hd.
  - cbn [andb]. destruct (modeEffect _); reflexivity.
  - apply differs_false in Hd. contradiction.
Qed.

(** X13: no alert is missed.  Outside test mode, when the selected record
    has a non-empty time other than the last alerted one, letting the
    effects run plays exactly one sound, with the early-warning tone exactly
    for an early warning, and records the time; so once the effects have
    settled the selected record's time is the last alerted one. *)
Theorem new_event_sounds_once (st : Store) (t : jsstring) (b : bool) :
  testMode st = false -> candidate st = Some (t, b) -> truthy t = true ->
  (lastAlertTime st <> Some t ->
     snd (settle st) = [b]
     /\ lastAlertTime (fst (settle st)) = Some t
     /\ settle (fst (settle st)) = (fst (settle st), []))
  /\ (settled st -> lastAlertTime st = Some t).
Proof.
  intros Ht Hc Htr. split.
  - intros Hl. split; [|split].
    + rewrite settle_eq, (runEffects_new st t b Ht Hc Htr Hl). reflexivity.
    + rewrite settle_eq, (runEffects_new st t b Ht Hc Htr Hl). cbn [fst].
      destruct (modeEffect_frame (setLastAlertTime (Some t) st)) as [m ->].
      reflexivity.
    + apply settle_of_settled, settle_settled.
  - intros Hs. destruct (list_eq_dec N.eq_dec t t) as [_|Hn]; [|contradiction].
    destruct (differs t (lastAlertTime st)) eqn:Hd.
    + exfalso. apply settled_iff in Hs. destruct Hs as [Ha _].
      rewrite alertEffect_spec in Ha. unfold alertSpec in Ha.
      rewrite Ht, Hc, Hd, Htr in Ha. discriminate Ha.
    + now apply differs_false.
Qed.

Lemma candidate_scanline (st : Store) :
  scanline st = false <-> candidate st = None.
Proof.
  unfold scanline, isQuakeAlert, isTsunamiActive, isEEWActive,
    candidate, activeTsunami.
  destruct (eewData st).
  { rewrite orb_true_r. split; discriminate. }
  rewrite orb_false_r.
  destruct (quakeData st) as [q|].
  - rewrite Z.geb_leb. destruct (30 <=? q_maxScale q)%Z.
    + split; discriminate.
    + destruct (tsunamiData st) as [t|]; [|split; reflexivity].
      destruct (t_cancelled t); split; try reflexivity; discriminate.
  - destruct (tsunamiData st) as [t|]; [|split; reflexivity].
    destruct (t_cancelled t); split; try reflexivity; discriminate.
Qed.

(** X14: sound and display use the same conditions.  When the animated
    scanline is off (no earthquake of scale 30 or more, no active tsunami,
    no early warning) the trigger plays nothing; a played sound implies the
    scanline is on; and the graver flags imply the lighter ones (major
    earthquake implies earthquake alert, major tsunami implies tsunami
    warning implies active tsunami). *)
Theorem sound_needs_indicator (st : Store) :
  (scanline st = false -> alertEffect st = (st, None))
  /\ (forall st' b, alertEffect st = (st', Some b) -> scanline st = true)
  /\ (isQuakeMajor st = true -> isQuakeAlert st = true)
  /\ (isTsunamiMajor st = true -> isTsunamiWarning st = true)
  /\ (isTsunamiWarning st = true -> isTsunamiActive st = true).
Proof.
  split; [|split; [|split; [|split]]].
  - intros H. rewrite alertEffect_spec. apply alertSpec_none.
    now apply candidate_scanline.
  - intros st' b H. rewrite alertEffect_spec in H.
    apply alertSpec_fires in H. destruct H as (t & Hc & _).
    destruct (scanline st) eqn:Hs; [reflexivity|].
    apply candidate_scanline in Hs. congruence.
  - unfold isQuakeMajor, isQuakeAlert. destruct (quakeData st); [|discriminate].
    intros H. apply Z.leb_le in H. apply Z.leb_le. lia.
  - unfold isTsunamiMajor, isTsunamiWarning. intros H.
    apply andb_prop in H. destruct H as [-> ->]. now rewrite orb_true_r.
  - unfold isTsunamiWarning. intros H. now apply andb_prop in H.
Qed.

(** ** Records a poll stores *)

Lemma orMinusOne_nonzero (x : option Z) : orMinusOne x <> 0%Z.
Proof.
  unfold orMinusOne. destruct x as [v|]; [|discriminate].
  destruct (Z.eqb_spec v 0); [discriminate | assumption].
Qed.

Lemma processEEW_scale (now : Z) (res : bool * Body EewItem) (st : Store)
  (r : EEWData) :
  eewData (fst (processEEW now res st)) = Some r ->
  eewData st = Some r \/ e_maxScale r <> 0%Z.
Proof.
  destruct res as [ok body].
  unfold processEEW, latest, bind, deref, ret, throw, set.
  destruct ok; [|now left].
  destruct body as [| | |[|[item|] rest]]; try (now left).
  cbn. destruct (isRecent now (ei_time item)); cbn; [|discriminate].
  destruct (ei_cancelled item); cbn; [discriminate|].
  destruct (ei_earthquake item) as [area|]; [|now left].
  destruct (ee_hypocenter area) as [h|]; [|now left].
  cbn. destruct (ei_issue item) as [issue|]; [|now left].
  cbn. intros H. injection H as <-. right. apply orMinusOne_nonzero.
Qed.

Lemma processTsunami_grade (res : bool * Body TsunamiItem) (st : Store)
  (r : TsunamiData) :
  tsunamiData (fst (processTsunami res st)) = Some r ->
  tsunamiData st = Some r \/ t_maxGrade r = maxGradeOf (t_areas r).
Proof.
  destruct res as [ok body].
  unfold processTsunami, latest, bind, deref, ret, throw, set.
  destruct ok; [|now left].
  destruct body as [| | |[|[item|] rest]]; try (now left).
  cbn. destruct (ti_areas item); cbn; [|discriminate].
  intros H. injection H as <-. now right.
Qed.

Lemma step_data (ev : Event) (st : Store) :
  eewData (fst (step ev st)) = eewData (fst (handle ev st))
  /\ tsunamiData (fst (step ev st)) = tsunamiData (fst (handle ev st)).
Proof.
  rewrite step_fst.
  destruct (settle_frame (fst (handle ev st))) as (v & m & -> & _).
  split; reflexivity.
Qed.

Lemma handle_records (ev : Event) (st : Store) :
  scaleNonZero st -> gradeConsistent st ->
  scaleNonZero (fst (handle ev st)) /\ gradeConsistent (fst (handle ev st)).
Proof.
  unfold scaleNonZero, gradeConsistent. intros He Ht.
  pose proof (handle_poll_frame ev st) as Hf.
  destruct ev as [|res|res|res now| | | | |isoE isoQ].
  - destruct Hf as [l ->]. now split.
  - destruct Hf as [v ->]. now split.
  - clear Hf. cbn [handle fst]. split; [|intros r Hr].
    + destruct (processTsunami_cases res st) as [v ->]. exact He.
    + destruct (processTsunami_grade res st r Hr) as [H|H];
        [now apply Ht | exact H].
  - cbn [handle fst]. split; [intros r Hr|].
    + destruct (processEEW_scale now res st r Hr) as [H|H];
        [now apply He | exact H].
    + destruct Hf as (v & Hv & _). cbn [handle fst] in Hv. rewrite Hv.
      exact Ht.
  - destruct Hf as [l ->]. now split.
  - cbn [handle fst].
    destruct (clickTab_cases EARTHQUAKE st) as [->|[_ ->]]; now split.
  - cbn [handle fst].
    destruct (clickTab_cases TSUNAMI st) as [->|[_ ->]]; now split.
  - cbn [handle]. destruct (armed st) as [i|]; cbn [fst]; [|now split].
    unfold rotationTick. destruct (negb _); now split.
  - cbn [handle]. unfold toggleTestMode.
    destruct (negb (testMode st)); cbn; split;
      try exact Ht; intros r Hr; try discriminate Hr.
    injection Hr as <-. discriminate.
Qed.

Lemma reachable_records (evs : list Event) :
  scaleNonZero (fst (run evs initialStore))
  /\ gradeConsistent (fst (run evs initialStore)).
Proof.
  apply (run_invariant (fun st => scaleNonZero st /\ gradeConsistent st)).
  - intros ev st _ [He Ht]. destruct (handle_records ev st He Ht) as [He' Ht'].
    destruct (step_data ev st) as [E1 E2].
    unfold scaleNonZero, gradeConsistent. rewrite E1, E2. now split.
  - apply initial_settled.
  - split; intros r Hr; discriminate Hr.
Qed.

(** X15: the forecast scale of a stored early warning is never 0: a missing
    or zero scale is stored as -1 and so displayed as "UNKNOWN", whereas an
    earthquake of scale 0 is displayed as "0". *)
Theorem eew_scale_never_zero :
  (forall (evs : list Event) (r : EEWData),
     eewData (fst (run evs initialStore)) = Some r -> e_maxScale r <> 0%Z)
  /\ (forall x : option Z,
        getIntensityLabel (orMinusOne x) = utf16 "UNKNOWN"
        <-> x = None \/ x = Some 0%Z \/ x = Some (-1)%Z)
  /\ getIntensityLabel 0 = utf16 "0".
Proof.
  split; [|split; [|reflexivity]].
  - intros evs r. apply (proj1 (reachable_records evs)).
  - intros x. destruct x as [v|].
    + unfold orMinusOne. destruct (Z.eqb_spec v 0) as [->|Hv].
      * split; [now right; left | reflexivity].
      * destruct (label_cases v)
          as [[-> _]|[(_ & Hne & H)|[(_ & _ & H & _)|(_ & _ & H)]]].
        -- split; [now right; right | reflexivity].
        -- rewrite H. split; [intros E; vm_compute in E; discriminate E|].
           intros [E|[E|E]]; congruence.
        -- split; [contradiction|].
           intros [E|[E|E]]; try discriminate E; injection E as ->;
             [contradiction | exfalso; apply H; reflexivity].
        -- rewrite H. split; [intros E; vm_compute in E; discriminate E|].
           intros [E|[E|E]]; try discriminate E; injection E as ->;
             [contradiction | vm_compute in H; discriminate H].
    + split; [now left | reflexivity].
Qed.

(** X16: in every state the widget reaches, the stored tsunami record's
    highest grade is the one computed from its own list of areas, and it is
    one of MajorWarning, Warning, Watch and Unknown. *)
Theorem tsunami_grade_consistent (evs : list Event) (r : TsunamiData) :
  tsunamiData (fst (run evs initialStore)) = Some r ->
  t_maxGrade r = maxGradeOf (t_areas r)
  /\ In (t_maxGrade r) [utf16 "MajorWarning"; utf16 "Warning"; utf16 "Watch";
                        utf16 "Unknown"].
Proof.
  intros Hr. pose proof (proj2 (reachable_records evs) r Hr) as H.
  split; [exact H|]. rewrite H. unfold maxGradeOf. cbn [In].
  destruct (existsb _ _); [now left|].
  destruct (existsb _ _); [now right; left|].
  destruct (existsb _ _); [now right; right; left | now right; right; right; left].
Qed.

(** ** A poll and the effects together *)

Lemma processQuake_snd (ok : bool) (body : Body QuakeItem) (st : Store) :
  snd (processQuake (ok, body) st)
  = if quakeThrows (Http ok body) then None else Some tt.
Proof.
  unfold processQuake, latest, bind, deref, ret, throw, set.
  destruct ok; [|reflexivity].
  destruct body as [| | |[|[item|] rest]]; try reflexivity.
  cbn. destruct (qi_earthquake item) as [q|]; [|reflexivity].
  destruct (qe_hypocenter q); reflexivity.
Qed.

Lemma processTsunami_snd (ok : bool) (body : Body TsunamiItem) (st : Store) :
  snd (processTsunami (ok, body) st)
  = if tsunamiThrows (Http ok body) then None else Some tt.
Proof.
  unfold processTsunami, latest, bind, deref, ret, throw, set.
  destruct ok; [|reflexivity].
  destruct body as [| | |[|[item|] rest]]; try reflexivity.
  cbn. destruct (ti_areas item); reflexivity.
Qed.

(** The call as a whole is its events' writes one after the other. *)
Lemma fetchData_is_writes (rq : Response QuakeItem) (rt : Response TsunamiItem)
  (re : Response EewItem) (now : Z) (st : Store) :
  testMode st = false ->
  fetchData rq rt re now st = writes (pollEvents rq rt re now) st.
Proof.
  intros Ht. unfold fetchData, writes, pollEvents. rewrite Ht.
  cbn [fold_left app handle fst]. rewrite Ht.
  unfold fetchBody, awaitAll, bind, ret, throw.
  destruct rq as [|okq bq]; [reflexivity|].
  destruct rt as [|okt bt]; [reflexivity|].
  destruct re as [|oke be]; [reflexivity|].
  cbn [fold_left app handle fst].
  pose proof (processQuake_snd okq bq (setLoading true st)) as Hq.
  destruct (processQuake (okq, bq) (setLoading true st)) as [s1 r1].
  cbn [fst snd] in *.
  destruct (quakeThrows (Http okq bq)); subst r1; [reflexivity|].
  cbn [fold_left app handle fst].
  pose proof (processTsunami_snd okt bt s1) as Hts.
  destruct (processTsunami (okt, bt) s1) as [s2 r2].
  cbn [fst snd] in *.
  destruct (tsunamiThrows (Http okt bt)); subst r2; [reflexivity|].
  cbn [fold_left app handle fst].
  destruct (processEEW now (oke, be) s2) as [s3 r3]. reflexivity.
Qed.

Lemma settle_sameData (st : Store) : sameData (fst (settle st)) st.
Proof. destruct (settle_frame st) as (v & m & -> & _). repeat split. Qed.

Lemma sameData_trans (a b c : Store) :
  sameData a b -> sameData b c -> sameData a c.
Proof.
  unfold sameData. intros (A1 & A2 & A3 & A4 & A5) (B1 & B2 & B3 & B4 & B5).
  repeat split; congruence.
Qed.

(** The writes of a poll's events depend on the records only, not on what
    the effects wrote. *)
Lemma handle_sameData (ev : Event) (a b : Store) :
  isPollEvent ev = true -> sameData a b ->
  sameData (fst (handle ev a)) (fst (handle ev b)).
Proof.
  intros Hev (H1 & H2 & H3 & H4 & H5).
  destruct ev as [|[ok body]|[ok body]|[ok body] now| | | | |isoE isoQ];
    try discriminate Hev; cbn [handle fst].
  - rewrite H5. destruct (testMode b) eqn:Hb; repeat split; cbn; congruence.
  - unfold processQuake, latest, bind, deref, ret, throw, set.
    destruct ok; [|repeat split; cbn; congruence].
    destruct body as [| | |[|[item|] rest]]; try (repeat split; cbn; congruence).
    cbn. destruct (qi_earthquake item) as [q|]; [|repeat split; cbn; congruence].
    destruct (qe_hypocenter q); repeat split; cbn; congruence.
  - unfold processTsunami, latest, bind, deref, ret, throw, set.
    destruct ok; [|repeat split; cbn; congruence].
    destruct body as [| | |[|[item|] rest]]; try (repeat split; cbn; congruence).
    cbn. destruct (ti_areas item); repeat split; cbn; congruence.
  - unfold processEEW, latest, bind, deref, ret, throw, set.
    destruct ok; [|repeat split; cbn; congruence].
    destruct body as [| | |[|[item|] rest]]; try (repeat split; cbn; congruence).
    cbn. destruct (isRecent now (ei_time item) && negb (ei_cancelled item));
      [|repeat split; cbn; congruence].
    destruct (ei_earthquake item) as [area|]; [|repeat split; cbn; congruence].
    destruct (ee_hypocenter area) as [h|]; [|repeat split; cbn; congruence].
    cbn. destruct (ei_issue item); repeat split; cbn; congruence.
  - repeat split; cbn; congruence.
Qed.

Lemma run_sameData (evs : list Event) :
  forallb isPollEvent evs = true ->
  forall a b, sameData a b -> sameData (fst (run evs a)) (writes evs b).
Proof.
  induction evs as [|ev rest IH]; intros Hall a b H; [exact H|].
  cbn [forallb] in Hall. apply andb_prop in Hall. destruct Hall as [Hev Hrest].
  rewrite run_cons_fst. unfold writes. cbn [fold_left].
  apply (IH Hrest). rewrite step_fst.
  apply (sameData_trans _ (fst (handle ev a))); [apply settle_sameData|].
  now apply handle_sameData.
Qed.

(** A call of [fetchData] that nothing interrupts, run event by event with
    the effects after each, leaves the records the call as a whole leaves. *)
Lemma poll_run_is_fetchData (rq : Response QuakeItem)
  (rt : Response TsunamiItem) (re : Response EewItem) (now : Z) (st : Store) :
  testMode st = false ->
  sameData (fst (run (pollEvents rq rt re now) st)) (fetchData rq rt re now st).
Proof.
  intros Ht. rewrite (fetchData_is_writes rq rt re now st Ht).
  apply run_sameData; [|repeat split].
  unfold pollEvents. destruct rq as [|okq bq]; [reflexivity|].
  destruct rt as [|okt bt]; [reflexivity|].
  destruct re as [|oke be]; [reflexivity|].
  destruct (quakeThrows (Http okq bq)); [reflexivity|].
  destruct (tsunamiThrows (Http okt bt)); reflexivity.
Qed.

Lemma pollEvents_complete (okq okt oke : bool) (bq : Body QuakeItem)
  (bt : Body TsunamiItem) (be : Body EewItem) (now : Z) :
  quakeThrows (Http okq bq) = false -> tsunamiThrows (Http okt bt) = false ->
  pollEvents (Http okq bq) (Http okt bt) (Http oke be) now
  = [PollBegin; QuakeArrives (okq, bq); TsunamiArrives (okt, bt);
     EewArrives (oke, be) now; PollEnd].
Proof. intros Hq Ht. unfold pollEvents. rewrite Hq, Ht. reflexivity. Qed.

(** Outside test mode, after an event of a poll and the effects the display
    is on EEW with a record, and otherwise where it was, EARTHQUAKE standing
    in for EEW. *)
Lemma step_poll_mode (ev : Event) (st : Store) :
  isPollEvent ev = true -> testMode st = false ->
  testMode (fst (step ev st)) = false
  /\ eewData (fst (step ev st)) = eewData (fst (handle ev st))
  /\ activeMode (fst (step ev st))
     = match eewData (fst (handle ev st)) with
       | Some _ => EEW
       | None => if modeEqb (activeMode st) EEW then EARTHQUAKE
                 else activeMode st
       end.
Proof.
  intros Hev Ht. rewrite step_fst.
  destruct (handle_controls ev st Hev) as (Ct & Cm & _).
  destruct (settle_data (fst (handle ev st))) as (Dt & De & _).
  rewrite Dt, De, Ct. split; [exact Ht|]. split; [reflexivity|].
  rewrite settle_mode by (now rewrite Ct). now rewrite Cm.
Qed.

Lemma settled_alerted (st : Store) (t : jsstring) (b : bool) :
  testMode st = false -> candidate st = Some (t, b) -> truthy t = true ->
  settled st -> lastAlertTime st = Some t.
Proof.
  intros Ht Hc Htr Hs.
  destruct (differs t (lastAlertTime st)) eqn:Hd.
  - exfalso. apply settled_iff in Hs. destruct Hs as [Ha _].
    rewrite alertEffect_spec in Ha. unfold alertSpec in Ha.
    rewrite Ht, Hc, Hd, Htr in Ha. discriminate Ha.
  - now apply differs_false.
Qed.

Lemma mode_after (o : option EEWData) (m : DisplayMode) :
  m = EEW \/ m = EARTHQUAKE ->
  match o with
  | Some _ => EEW
  | None => if modeEqb m EEW then EARTHQUAKE else m
  end = EEW
  \/ match o with
     | Some _ => EEW
     | None => if modeEqb m EEW then EARTHQUAKE else m
     end = EARTHQUAKE.
Proof. intros [->| ->]; destruct o; cbn; auto. Qed.

(** The steps of a poll that gets to its early-warning block. *)
Lemma run_poll_steps (okq okt oke : bool) (bq : Body QuakeItem)
  (bt : Body TsunamiItem) (be : Body EewItem) (now : Z) (st : Store) :
  quakeThrows (Http okq bq) = false -> tsunamiThrows (Http okt bt) = false ->
  testMode st = false ->
  exists s3,
    testMode s3 = false
    /\ (activeMode st = EEW -> activeMode s3 = EEW \/ activeMode s3 = EARTHQUAKE)
    /\ fst (run (pollEvents (Http okq bq) (Http okt bt) (Http oke be) now) st)
       = fst (step PollEnd (fst (step (EewArrives (oke, be) now) s3))).
Proof.
  intros Hq Hts Ht. rewrite (pollEvents_complete okq okt oke bq bt be now Hq Hts).
  rewrite !run_cons_fst. cbn [run fst].
  destruct (step_poll_mode PollBegin st eq_refl Ht) as (T1 & _ & M1).
  set (s1 := fst (step PollBegin st)) in *.
  destruct (step_poll_mode (QuakeArrives (okq, bq)) s1 eq_refl T1)
    as (T2 & _ & M2).
  set (s2 := fst (step (QuakeArrives (okq, bq)) s1)) in *.
  destruct (step_poll_mode (TsunamiArrives (okt, bt)) s2 eq_refl T2)
    as (T3 & _ & M3).
  set (s3 := fst (step (TsunamiArrives (okt, bt)) s2)) in *.
  exists s3. split; [exact T3|]. split; [|reflexivity].
  intros Hm. rewrite M3. apply mode_after.
  rewrite M2. apply mode_after.
  rewrite M1. apply mode_after. now left.
Qed.

(** X17: the early-warning block of a poll, outside test mode, with a fresh,
    non-cancelled, complete item whose time is not empty.  The item is
    stored and the display goes to EEW; the early-warning tone is played
    exactly once if the item's time is not the last alerted one, and no
    sound is played if it is.  A whole poll that gets to that block ends
    with the record stored, its time the last alerted one and the display
    on EEW. *)
Theorem fresh_eew_alerts (now ev : Z) (item : EewItem)
  (rest : list (option EewItem)) (area : EewEarthquakeJson)
  (h : HypocenterJson) (issue : IssueJson) (st : Store) :
  testMode st = false ->
  dateTime (ei_time item) = Some ev -> (now - ev < freshnessWindow)%Z ->
  ei_cancelled item = false ->
  ei_earthquake item = Some area -> ee_hypocenter area = Some h ->
  ei_issue item = Some issue ->
  truthy (ei_time item) = true ->
  let block := EewArrives (true, Items (Some item :: rest)) now in
  let stored (s : Store) :=
    eewData s = Some (eewOf upperNonAscii item area h issue)
    /\ lastAlertTime s = Some (ei_time item)
    /\ activeMode s = EEW in
  (lastAlertTime st <> Some (ei_time item) ->
     snd (step block st) = [true] /\ stored (fst (step block st)))
  /\ (lastAlertTime st = Some (ei_time item) ->
        snd (step block st) = [] /\ stored (fst (step block st)))
  /\ (forall (okq okt : bool) (bq : Body QuakeItem) (bt : Body TsunamiItem),
        quakeThrows (Http okq bq) = false ->
        tsunamiThrows (Http okt bt) = false ->
        stored (fst (run (pollEvents (Http okq bq) (Http okt bt)
                            (Http true (Items (Some item :: rest))) now) st))).
Proof.
  intros Ht Hd Hlt Hc Ha Hh Hi Htr block stored.
  assert (Hblock : forall s, testMode s = false ->
            step block s
            = runEffects (setEewData
                            (Some (eewOf upperNonAscii item area h issue)) s)).
  { intros s Hs. unfold step, block. cbn [handle].
    rewrite (processEEW_stores now item rest s area h issue
               (isRecent_fresh now ev _ Hd Hlt) Hc Ha Hh Hi).
    cbn [fst]. rewrite settle_eq. cbn [app].
    destruct (runEffects _); reflexivity. }
  set (r := eewOf upperNonAscii item area h issue) in *.
  assert (Hcand : forall s, candidate (setEewData (Some r) s)
                            = Some (ei_time item, true)).
  { intros s. reflexivity. }
  assert (Hmode : forall s, testMode s = false ->
            fst (modeEffect (setEewData (Some r) s))
            = setActiveMode EEW (setEewData (Some r) s)).
  { intros s Hs. unfold modeEffect.
    cbn [testMode eewData setEewData]. now rewrite Hs. }
  split; [|split].
  - intros Hl. rewrite (Hblock st Ht).
    rewrite (runEffects_new (setEewData (Some r) st) (ei_time item) true
               Ht (Hcand st) Htr Hl).
    cbn [fst snd]. split; [reflexivity|].
    unfold modeEffect. cbn [testMode eewData setLastAlertTime setEewData].
    rewrite Ht. repeat split.
  - intros Hl. rewrite (Hblock st Ht). unfold runEffects.
    rewrite alertEffect_spec.
    rewrite (alertSpec_silent (setEewData (Some r) st) (ei_time item) true
               (Hcand st) Hl).
    pose proof (Hmode st Ht) as Hm.
    destruct (modeEffect (setEewData (Some r) st)) as [s2 i].
    cbn [fst snd sounds] in *. subst s2. split; [reflexivity|].
    repeat split. exact Hl.
  - intros okq okt bq bt Hq Hts.
    destruct (run_poll_steps okq okt true bq bt (Items (Some item :: rest))
                now st Hq Hts Ht) as (s3 & T3 & _ & ->).
    fold block.
    destruct (step_poll_mode block s3 eq_refl T3) as (T4 & E4 & M4).
    assert (E4' : eewData (fst (step block s3)) = Some r).
    { rewrite E4. unfold block. cbn [handle fst].
      rewrite (processEEW_stores now item rest s3 area h issue
                 (isRecent_fresh now ev _ Hd Hlt) Hc Ha Hh Hi).
      reflexivity. }
    set (s4 := fst (step block s3)) in *.
    destruct (step_poll_mode PollEnd s4 eq_refl T4) as (T5 & E5 & M5).
    cbn [handle fst eewData setLoading] in E5, M5.
    pose proof (step_settled PollEnd s4) as S5.
    set (s5 := fst (step PollEnd s4)) in *.
    assert (E5' : eewData s5 = Some r) by (rewrite E5; exact E4').
    split; [exact E5'|]. split.
    + apply (settled_alerted s5 (ei_time item) true T5); try assumption.
      unfold candidate. now rewrite E5'.
    + rewrite M5, E4'. reflexivity.
Qed.

(** X18: a poll that gets to its early-warning block and whose newest item
    is stale or cancelled clears the record, and a display that was on EEW
    is back on EARTHQUAKE when the poll ends. *)
Theorem stale_eew_reverts (now : Z) (item : EewItem)
  (rest : list (option EewItem)) (okq okt : bool)
  (bq : Body QuakeItem) (bt : Body TsunamiItem) (st : Store) :
  testMode st = false ->
  quakeThrows (Http okq bq) = false ->
  tsunamiThrows (Http okt bt) = false ->
  isRecent now (ei_time item) = false \/ ei_cancelled item = true ->
  activeMode st = EEW ->
  let result := run (pollEvents (Http okq bq) (Http okt bt)
                       (Http true (Items (Some item :: rest))) now) st in
  eewData (fst result) = None /\ activeMode (fst result) = EARTHQUAKE.
Proof.
  intros Ht Hq Hts Hstale Hm result. subst result.
  destruct (run_poll_steps okq okt true bq bt (Items (Some item :: rest))
              now st Hq Hts Ht) as (s3 & T3 & M3 & ->).
  specialize (M3 Hm).
  set (block := EewArrives (true, Items (Some item :: rest)) now).
  destruct (step_poll_mode block s3 eq_refl T3) as (T4 & E4 & M4).
  assert (E4' : eewData (fst (handle block s3)) = None).
  { unfold block. cbn [handle fst].
    now rewrite (processEEW_discards now item rest s3 Hstale). }
  rewrite E4' in E4, M4.
  assert (M4' : activeMode (fst (step block s3)) = EARTHQUAKE).
  { rewrite M4. destruct M3 as [->| ->]; reflexivity. }
  set (s4 := fst (step block s3)) in *.
  destruct (step_poll_mode PollEnd s4 eq_refl T4) as (_ & E5 & M5).
  cbn [handle fst eewData setLoading] in E5, M5.
  rewrite E5, M5, E4, M4'. split; reflexivity.
Qed.

End Widget.

(** ** The properties on concrete inputs *)

(** The translator on "  tokyo   bay ". *)
Lemma translateText_ascii_idempotent_witness :
  forallb isAscii (utf16 "  tokyo   bay ") = true
  /\ translateText caseless (utf16 "  tokyo   bay ") = utf16 "TOKYO BAY"
  /\ translateText caseless (translateText caseless (utf16 "  tokyo   bay "))
     = translateText caseless (utf16 "  tokyo   bay ").
Proof.
  split; [reflexivity|]. split; [reflexivity|].
  apply (translateText_ascii_idempotent caseless (utf16 "  tokyo   bay ")).
  reflexivity.
Defined.

(** "青道森" holds no key of the prefecture table; deleting "道" in the
    suffix pass leaves "青森", which a second translation turns into
    "AOMORI". *)
Lemma translateText_not_idempotent :
  translateText caseless (utf16 "青道森") = utf16 "青森"
  /\ translateText caseless (translateText caseless (utf16 "青道森"))
     = utf16 "AOMORI"
  /\ translateText caseless (translateText caseless (utf16 "青道森"))
     <> translateText caseless (utf16 "青道森")
  /\ forallb isAscii (translateText caseless (utf16 "青道森")) = false.
Proof.
  repeat split; try reflexivity. vm_compute. discriminate.
Qed.

Lemma getIntensityLabel_table_witness :
  (10 <= 35)%Z /\ getIntensityLabel 35 = utf16 "?".
Proof.
  split; [lia|].
  apply getIntensityLabel_table; [lia|].
  cbv [listedCodes In]. intuition discriminate.
Defined.

Lemma getIntensityLabel_below_ten_witness :
  (5 < 10)%Z /\ getIntensityLabel 5 = utf16 "0".
Proof.
  split; [lia|].
  apply (proj1 getIntensityLabel_below_ten 5%Z); [lia | discriminate].
Defined.

(** A scale that is not a number ([undefined] in the feed, NaN) is not
    greater than 10, and its label is "?". *)
Lemma getIntensityLabel_not_a_number :
  getIntensityLabel NaN = utf16 "?"
  /\ numGt NaN 10 = false
  /\ numLt NaN 10 = false
  /\ numEq NaN (-1) = false.
Proof. repeat split. Qed.

(** Two polls in a row deliver the same earthquake of scale 40. *)
Lemma alert_dedup_witness :
  selectedTime (Some sampleQuake, None, None) = Some sampleTime
  /\ List.length
       (snd (alertRun [(Some sampleQuake, None, None);
                       (Some sampleQuake, None, None)] initialStore)) = 1.
Proof.
  split; [reflexivity|].
  apply (proj2 (proj2 (proj2 alert_dedup))
           (Some sampleQuake, None, None) (Some sampleQuake, None, None)
           initialStore sampleTime);
    try reflexivity.
  discriminate.
Defined.

(** The earthquake of [sampleTime] is alerted; an early warning of a later
    time arrives and is alerted; it expires, the same earthquake is selected
    again and, its time no longer being the last alerted one, is alerted a
    second time. *)
Lemma alert_repeats_after_other_event :
  selectedTime (Some sampleQuake, None, None) = Some sampleTime
  /\ selectedTime (Some sampleQuake, None, Some laterEew) = Some laterTime
  /\ snd (alertRun [(Some sampleQuake, None, None);
                    (Some sampleQuake, None, Some laterEew);
                    (Some sampleQuake, None, None)] initialStore)
     = [false; true; false].
Proof. repeat split. Qed.

(** An early warning, an earthquake of scale 40 and a tsunami all present:
    the early warning is the one alerted. *)
Lemma alert_priority_witness :
  alertEffect (withData (Some sampleQuake) (Some sampleTsunami)
                 (Some sampleEew) initialStore)
  = (setLastAlertTime (Some sampleTime)
       (withData (Some sampleQuake) (Some sampleTsunami) (Some sampleEew)
          initialStore), Some true)
  /\ lastAlertTime
       (setLastAlertTime (Some sampleTime)
          (withData (Some sampleQuake) (Some sampleTsunami) (Some sampleEew)
             initialStore)) = Some (e_time sampleEew).
Proof.
  split; [reflexivity|].
  apply (proj1 (proj2 (alert_priority
           (withData (Some sampleQuake) (Some sampleTsunami) (Some sampleEew)
              initialStore))) _ true eq_refl).
Defined.

(** A cancelled item clears the record. *)
Lemma eew_poll_freshness_witness :
  eewData (fetchData caseless utcDateTime (Http true Blank) (Http true Blank)
             (Http true (Items [Some (sampleEewItem true)])) sampleNow
             (setEewData (Some sampleEew) initialStore)) = None.
Proof.
  apply (proj1 (proj2 (proj2
           (eew_poll_freshness caseless utcDateTime sampleNow
              (sampleEewItem true) [] true true Blank Blank
              (setEewData (Some sampleEew) initialStore)
              (setLoading true (setEewData (Some sampleEew) initialStore))
              (setLoading true (setEewData (Some sampleEew) initialStore))
              eq_refl eq_refl eq_refl)))).
  reflexivity.
Defined.

(** The newest early-warning item is ten minutes old, but the earthquake
    body of the same poll is not JSON: the stored early warning stays, in
    the call as a whole and in its run of events.  A fresh, non-cancelled
    item with its [earthquake] field but without [hypocenter] is not
    stored. *)
Lemma stale_eew_survives_poll :
  utcDateTime (ei_time (sampleEewItem false)) = Some 1763806500000%Z
  /\ (freshnessWindow <=? lateNow - 1763806500000)%Z = true
  /\ eewData
       (fetchData caseless utcDateTime (Http true Invalid) (Http true Blank)
          (Http true (Items [Some (sampleEewItem false)])) lateNow
          (setEewData (Some sampleEew) initialStore)) = Some sampleEew
  /\ eewData
       (fst (run caseless utcDateTime
               (pollEvents (Http true Invalid) (Http true Blank)
                  (Http true (Items [Some (sampleEewItem false)])) lateNow)
               (setEewData (Some sampleEew) initialStore))) = Some sampleEew
  /\ isRecent utcDateTime sampleNow (ei_time bareEewItem) = true
  /\ ei_cancelled bareEewItem = false
  /\ ei_earthquake bareEewItem
     = Some {| ee_hypocenter := None; ee_maxScale := Some 40%Z |}
  /\ eewData
       (fetchData caseless utcDateTime (Http true Blank) (Http true Blank)
          (Http true (Items [Some bareEewItem])) sampleNow initialStore)
     = None.
Proof. repeat split. Qed.



(** A rejected earthquake fetch keeps the earthquake record. *)
Lemma poll_keeps_record_witness :
  quakeData (fetchData caseless utcDateTime Rejected (Http true Blank)
               (Http true Blank) sampleNow
               (setQuakeData (Some sampleQuake) initialStore))
  = Some sampleQuake.
Proof.
  apply (proj1 (poll_keeps_record caseless utcDateTime Rejected
                  (Http true Blank) (Http true Blank) sampleNow
                  (setQuakeData (Some sampleQuake) initialStore))).
  reflexivity.
Defined.

(** A tsunami item without [areas], and a null first element, clear the
    stored tsunami record; an early-warning item whose time cannot be read
    clears the stored early warning. *)
Lemma deficient_payload_clears_record :
  tsunamiData (setTsunamiData (Some sampleTsunami) initialStore)
  = Some sampleTsunami
  /\ tsunamiData
       (fetchData caseless utcDateTime (Http true Blank)
          (Http true (Items [Some bareTsunamiItem])) (Http true Blank)
          sampleNow (setTsunamiData (Some sampleTsunami) initialStore)) = None
  /\ tsunamiData
       (fetchData caseless utcDateTime (Http true Blank)
          (Http true (Items [None])) (Http true Blank) sampleNow
          (setTsunamiData (Some sampleTsunami) initialStore)) = None
  /\ eewData
       (fetchData caseless utcDateTime (Http true Blank) (Http true Blank)
          (Http true (Items [Some undatedEewItem])) sampleNow
          (setEewData (Some sampleEew) initialStore)) = None.
Proof. repeat split. Qed.

(** Three firings of the rotation interval from the initial state. *)
Lemma rotation_alternates_witness :
  runEffects initialStore = (initialStore, [])
  /\ activeMode
       (fst (run caseless utcDateTime (repeat RotationTimer 3) initialStore))
     = TSUNAMI.
Proof.
  split; [reflexivity|].
  exact (proj1 (proj2 (proj2 (proj2 (proj2
           (rotation_alternates caseless utcDateTime initialStore
              eq_refl eq_refl eq_refl))))) 3).
Defined.

(** The record stored by a poll that delivers a fresh early warning. *)
Lemma polled_eew_not_cancelled_witness :
  match eewData (fetchData caseless utcDateTime (Http true Blank)
                   (Http true Blank)
                   (Http true (Items [Some (sampleEewItem false)])) sampleNow
                   initialStore) with
  | Some r => e_hypocenter r = utf16 "CHIBA PREF EAST方 OFF"
              /\ e_isCancelled r = false
  | None => False
  end.
Proof.
  pose proof (proj1 (proj2 (polled_eew_not_cancelled caseless utcDateTime))
                (Http true Blank) (Http true Blank)
                (Http true (Items [Some (sampleEewItem false)])) sampleNow) as H.
  destruct (eewData _) as [r|] eqn:E.
  - split; [|exact (H r eq_refl)].
    vm_compute in E. injection E as <-. reflexivity.
  - vm_compute in E. discriminate.
Defined.

(** ** Further properties on concrete inputs *)

(** The areas Watch, Warning in either order. *)
Lemma maxGradeOf_highest_witness :
  maxGradeOf [watchArea; warningArea] = utf16 "Warning"
  /\ maxGradeOf [warningArea; watchArea] = maxGradeOf [watchArea; warningArea].
Proof.
  split; [reflexivity|].
  apply (proj2 (proj2 maxGradeOf_highest)). apply perm_swap.
Defined.

Lemma getIntensityLabel_injective_witness :
  In 45%Z labelledCodes /\ In 50%Z labelledCodes
  /\ getIntensityLabel 45 <> utf16 "?".
Proof.
  assert (H45 : In 45%Z labelledCodes) by (cbv [labelledCodes listedCodes In]; tauto).
  assert (H50 : In 50%Z labelledCodes) by (cbv [labelledCodes listedCodes In]; tauto).
  split; [exact H45|]. split; [exact H50|].
  exact (proj2 (proj2 (getIntensityLabel_injective 45 50 H45 H50))).
Defined.

(** The key "東シナ海", which holds the later key "東". *)
Lemma translateText_key_witness :
  In (utf16 "東シナ海", utf16 " EAST CHINA SEA") (PREF_MAP ++ SUFFIX_MAP)
  /\ translateText caseless (utf16 "東シナ海") = utf16 "EAST CHINA SEA".
Proof.
  assert (Hin : In (utf16 "東シナ海", utf16 " EAST CHINA SEA")
                  (PREF_MAP ++ SUFFIX_MAP)).
  { apply in_or_app. right. do 7 right. left. reflexivity. }
  split; [exact Hin|].
  exact (translateText_key caseless _ _ Hin).
Defined.

(** "道" (U+9053) in "北海道道東". *)
Lemma translateText_drops_single_keys_witness :
  In 36947%N (singleKeys SUFFIX_MAP)
  /\ ~ In 36947%N (translateText caseless (utf16 "北海道道東")).
Proof.
  assert (Hin : In 36947%N (singleKeys SUFFIX_MAP)).
  { do 3 right. left. reflexivity. }
  split; [exact Hin|].
  apply (translateText_drops_single_keys caseless 36947%N _ Hin).
  intros run H. exact H.
Defined.

Lemma translateText_normalised_witness :
  keepsWords caseless
  /\ trim (collapseSpaces (translateText caseless (utf16 " 千葉県　東方沖 ")))
     = translateText caseless (utf16 " 千葉県　東方沖 ").
Proof.
  assert (H : keepsWords caseless).
  { intros run Hne Hsf. split; assumption. }
  split; [exact H|].
  apply (translateText_normalised caseless H).
Defined.

(** In the test, the early-warning block of a poll begun before it brings a
    cancelled item: the simulated record is cleared and no sound is played. *)
Lemma test_mode_silent_witness :
  testMode (fst (run caseless utcDateTime
                   [ToggleTest sampleIso sampleIso] initialStore)) = true
  /\ step caseless utcDateTime
       (EewArrives (true, Items [Some (sampleEewItem true)]) sampleNow)
       (fst (run caseless utcDateTime
               [ToggleTest sampleIso sampleIso] initialStore))
     = (setEewData None
          (fst (run caseless utcDateTime
                  [ToggleTest sampleIso sampleIso] initialStore)), []).
Proof.
  split; [reflexivity|].
  rewrite (proj1 (test_mode_silent caseless utcDateTime
                    (fst (run caseless utcDateTime
                            [ToggleTest sampleIso sampleIso] initialStore))
                    (EewArrives (true, Items [Some (sampleEewItem true)])
                       sampleNow)
                    eq_refl eq_refl)).
  reflexivity.
Defined.


(** After a poll that brought a fresh early warning. *)
Lemma eew_mode_iff_record_witness :
  testMode
    (fst (run caseless utcDateTime
            (pollEvents (Http true Blank) (Http true Blank)
               (Http true (Items [Some (sampleEewItem false)])) sampleNow)
            initialStore)) = false
  /\ view
       (fst (run caseless utcDateTime
               (pollEvents (Http true Blank) (Http true Blank)
                  (Http true (Items [Some (sampleEewItem false)])) sampleNow)
               initialStore)) = EewView.
Proof.
  split; [reflexivity|].
  apply (proj2 (proj2 (eew_mode_iff_record caseless utcDateTime
                         (pollEvents (Http true Blank) (Http true Blank)
                            (Http true (Items [Some (sampleEewItem false)]))
                            sampleNow)
                         eq_refl))).
  reflexivity.
Defined.

(** An earthquake of scale 40 that has not been alerted yet. *)
Lemma new_event_sounds_once_witness :
  candidate (setQuakeData (Some sampleQuake) initialStore)
  = Some (sampleTime, false)
  /\ snd (settle (setQuakeData (Some sampleQuake) initialStore)) = [false].
Proof.
  split; [reflexivity|].
  apply (proj1 (new_event_sounds_once
                  (setQuakeData (Some sampleQuake) initialStore)
                  sampleTime false eq_refl eq_refl eq_refl)).
  discriminate.
Defined.

(** The record stored for the advisory-and-warning item. *)
Lemma tsunami_grade_consistent_witness :
  match tsunamiData
          (fst (run caseless utcDateTime
                  (pollEvents (Http true Blank)
                     (Http true (Items [Some sampleTsunamiItem]))
                     (Http true Blank) sampleNow) initialStore)) with
  | Some r => t_maxGrade r = utf16 "Warning"
              /\ t_maxGrade r = maxGradeOf (t_areas r)
  | None => False
  end.
Proof.
  pose proof (tsunami_grade_consistent caseless utcDateTime
                (pollEvents (Http true Blank)
                   (Http true (Items [Some sampleTsunamiItem]))
                   (Http true Blank) sampleNow)) as H.
  destruct (tsunamiData _) as [r|] eqn:E.
  - split; [|exact (proj1 (H r eq_refl))].
    vm_compute in E. injection E as <-. reflexivity.
  - vm_compute in E. discriminate.
Defined.

(** The early-warning block of the first poll brings a fresh item. *)
Lemma fresh_eew_alerts_witness :
  snd (step caseless utcDateTime
         (EewArrives (true, Items [Some (sampleEewItem false)]) sampleNow)
         initialStore) = [true].
Proof.
  refine (proj1 (proj1
    (fresh_eew_alerts caseless utcDateTime sampleNow 1763806500000
       (sampleEewItem false) []
       {| ee_hypocenter := Some sampleHypocenter; ee_maxScale := Some 40%Z |}
       sampleHypocenter {| issue_type := utf16 "Warning" |} initialStore
       eq_refl eq_refl eq_refl eq_refl eq_refl eq_refl eq_refl eq_refl) _)).
  discriminate.
Defined.

(** The early warning on display has become ten minutes old. *)
Lemma stale_eew_reverts_witness :
  activeMode
    (fst (run caseless utcDateTime
            (pollEvents (Http true Blank) (Http true Blank)
               (Http true (Items [Some (sampleEewItem false)])) lateNow)
            (setActiveMode EEW (setEewData (Some sampleEew) initialStore))))
  = EARTHQUAKE.
Proof.
  apply (proj2 (stale_eew_reverts caseless utcDateTime lateNow
                  (sampleEewItem false) [] true true Blank Blank
                  (setActiveMode EEW (setEewData (Some sampleEew) initialStore))
                  eq_refl eq_refl eq_refl (or_introl eq_refl) eq_refl)).
Defined.
